(** * Uniswap V3 transaction decoder: a shallow embedding and its properties

    The development follows [uniswap_v3_decoder.py].  Python [int] is [Z],
    [str] is [string], [bytes] is [list byte], [Optional[T]] is [option T],
    a raised exception is the [Raise] branch of [exn].  The libraries the
    decoder calls are modelled first (Keccak-256 and EIP-55 of [eth_utils],
    the pieces of [str], [bytes], [int] and [decimal] that are used); the
    ABI decoder of [eth_abi] and the JSON-RPC endpoint stay abstract, as
    variables of the section that holds the decoder itself. *)

From Stdlib Require Import List String Ascii ZArith NArith Lia Bool.
From Stdlib Require Import Strings.Byte.
From Stdlib Require Import Sorting.Sorted.
From stdpp Require Import base option list strings gmap sets.
Import ListNotations.

Local Open Scope string_scope.
Local Open Scope list_scope.
Local Open Scope Z_scope.

Set Warnings "-register-all".

#[global] Instance byte_eq_decision : EqDecision byte := Byte.byte_eq_dec.

(* ------------------------------------------------------------------ *)
(** ** Keccak-256, as used by [eth_utils.keccak] *)
(* ------------------------------------------------------------------ *)

Module Keccak.
Local Open Scope N_scope.

Definition mask64 : N := 18446744073709551615.

Definition rotl64 (w n : N) : N :=
  N.land (N.lor (N.shiftl w n) (N.shiftr w (64 - n))) mask64.

(** The state is 25 lanes of 64 bits, lane [(x, y)] at index [x + 5 y]. *)
Definition lane (st : list N) (x y : nat) : N := nth (x + 5 * y)%nat st 0.

Definition rotation_offsets : list N :=
  [ 0;  1; 62; 28; 27;
   36; 44;  6; 55; 20;
    3; 10; 43; 25; 39;
   41; 45; 15; 21;  8;
   18;  2; 61; 56; 14].

Definition round_constants : list N :=
  [0x0000000000000001; 0x0000000000008082; 0x800000000000808A;
   0x8000000080008000; 0x000000000000808B; 0x0000000080000001;
   0x8000000080008081; 0x8000000000008009; 0x000000000000008A;
   0x0000000000000088; 0x0000000080008009; 0x000000008000000A;
   0x000000008000808B; 0x800000000000008B; 0x8000000000008089;
   0x8000000000008003; 0x8000000000008002; 0x8000000000000080;
   0x000000000000800A; 0x800000008000000A; 0x8000000080008081;
   0x8000000000008080; 0x0000000080000001; 0x8000000080008008].

Definition theta (st : list N) : list N :=
  let C x := fold_left N.lxor (map (lane st x) (seq 0 5)) 0 in
  let D x := N.lxor (C ((x + 4) mod 5)%nat) (rotl64 (C ((x + 1) mod 5)%nat) 1) in
  map (fun i => N.lxor (nth i st 0) (D (i mod 5)%nat)) (seq 0 25).

(** Lane [(X, Y)] of the result is lane [(x, X)] of the argument rotated,
    where [x = X + 3 Y mod 5], that is [Y = 2 x + 3 X mod 5]. *)
Definition rho_pi (st : list N) : list N :=
  map (fun i => let X := (i mod 5)%nat in
                let Y := (i / 5)%nat in
                let x := ((X + 3 * Y) mod 5)%nat in
                rotl64 (lane st x X) (nth (x + 5 * X)%nat rotation_offsets 0))
      (seq 0 25).

Definition chi (st : list N) : list N :=
  map (fun i => let x := (i mod 5)%nat in
                let y := (i / 5)%nat in
                N.lxor (lane st x y)
                  (N.land (N.lxor (lane st ((x + 1) mod 5)%nat y) mask64)
                          (lane st ((x + 2) mod 5)%nat y)))
      (seq 0 25).

Definition iota (rc : N) (st : list N) : list N :=
  match st with
  | a :: rest => N.lxor a rc :: rest
  | [] => []
  end.

Definition keccak_f (st : list N) : list N :=
  fold_left (fun s rc => iota rc (chi (rho_pi (theta s)))) round_constants st.

Fixpoint lane_of_bytes (bs : list N) : N :=
  match bs with
  | [] => 0
  | b :: rest => b + 256 * lane_of_bytes rest
  end.

Fixpoint bytes_of_lane (n : nat) (w : N) : list N :=
  match n with
  | O => []
  | S n' => (w mod 256) :: bytes_of_lane n' (w / 256)
  end.

Fixpoint chunks (fuel k : nat) (l : list N) : list (list N) :=
  match fuel with
  | O => []
  | S f => match l with
           | [] => []
           | _ => firstn k l :: chunks f k (skipn k l)
           end
  end.

(** Rate of Keccak-256 in bytes (capacity 512 bits). *)
Definition rate : nat := 136.

(** The original Keccak padding [pad10*1] (domain byte 0x01, not the
    0x06 of SHA-3). *)
Definition pad (msg : list N) : list N :=
  let q := (rate - (List.length msg mod rate))%nat in
  if (q =? 1)%nat then msg ++ [0x81]
  else msg ++ [0x01] ++ repeat 0 (q - 2) ++ [0x80].

Definition absorb (st block : list N) : list N :=
  let lanes := map lane_of_bytes (chunks 17 8 block) ++ repeat 0 8 in
  keccak_f (map (fun p => N.lxor (fst p) (snd p)) (combine st lanes)).

Definition keccak256_N (msg : list N) : list N :=
  let p := pad msg in
  let st := fold_left absorb (chunks (S (List.length p)) rate p) (repeat 0 25) in
  firstn 32 (flat_map (bytes_of_lane 8) st).

Definition byte_of_N (n : N) : byte :=
  match Byte.of_N n with Some b => b | None => x00 end.

Definition keccak256 (msg : list byte) : list byte :=
  map byte_of_N (keccak256_N (map Byte.to_N msg)).
End Keccak.

(** [keccak(text=s)]: the digest of the UTF-8 bytes of [s] (the decoder only
    hashes ASCII signatures and hex strings). *)
Definition keccak (text : string) : list byte :=
  Keccak.keccak256 (list_byte_of_string text).

(* ------------------------------------------------------------------ *)
(** ** Pieces of Python's [str] and [bytes] *)
(* ------------------------------------------------------------------ *)

Definition hexdigit (n : N) : ascii :=
  nth (N.to_nat n) (list_ascii_of_string "0123456789abcdef") "0"%char.

(** [b.hex()] *)
Definition hex_chars (bs : list byte) : list ascii :=
  flat_map (fun b => [hexdigit (Byte.to_N b / 16); hexdigit (Byte.to_N b mod 16)]) bs.

Definition bytes_hex (bs : list byte) : string := string_of_list_ascii (hex_chars bs).

Definition is_digit (c : ascii) : bool :=
  let n := nat_of_ascii c in ((48 <=? n) && (n <=? 57))%nat.

Definition is_lower_hex (c : ascii) : bool :=
  let n := nat_of_ascii c in
  (((48 <=? n) && (n <=? 57)) || ((97 <=? n) && (n <=? 102)))%nat.

Definition ascii_lower (c : ascii) : ascii :=
  let n := nat_of_ascii c in
  if ((65 <=? n) && (n <=? 90))%nat then ascii_of_nat (n + 32) else c.

Definition ascii_upper (c : ascii) : ascii :=
  let n := nat_of_ascii c in
  if ((97 <=? n) && (n <=? 122))%nat then ascii_of_nat (n - 32) else c.

(** [s.lower()] *)
Definition str_lower (s : string) : string :=
  string_of_list_ascii (map ascii_lower (list_ascii_of_string s)).

(** [s.startswith(p)] *)
Definition startswith (s p : string) : bool := String.prefix p s.

(** [len(s)] *)
Definition str_len (s : string) : Z := Z.of_nat (String.length s).

(** [s[k:]] *)
Definition str_drop (k : nat) (s : string) : string :=
  string_of_list_ascii (skipn k (list_ascii_of_string s)).

(** [c in s] for a single character [c] *)
Definition str_contains (c : ascii) (s : string) : bool :=
  existsb (Ascii.eqb c) (list_ascii_of_string s).

(** [s.rstrip(c)] for a one-character set *)
Fixpoint rstrip (c : ascii) (s : string) : string :=
  match s with
  | EmptyString => EmptyString
  | String a s' =>
      match rstrip c s' with
      | EmptyString => if Ascii.eqb a c then EmptyString else String a EmptyString
      | r => String a r
      end
  end.

(** Truth value of an [Optional[str]] and of an [Optional[list]]. *)
Definition truthy_str (o : option string) : bool :=
  match o with
  | Some s => negb (String.eqb s "")
  | None => false
  end.

Definition truthy_list {A} (o : option (list A)) : bool :=
  match o with
  | Some (_ :: _) => true
  | _ => false
  end.

(* ------------------------------------------------------------------ *)
(** ** [eth_utils.to_checksum_address] (EIP-55) *)
(* ------------------------------------------------------------------ *)

(** Nibble [i] of a digest, most significant nibble of each byte first. *)
Definition digest_nibble (h : list byte) (i : nat) : N :=
  let b := Byte.to_N (nth (i / 2) h x00) in
  if Nat.even i then (b / 16)%N else (b mod 16)%N.

Definition checksum_chars (h : list byte) (body : list ascii) : list ascii :=
  imap (fun i c => if (7 <? digest_nibble h i)%N then ascii_upper c else c) body.

(** The argument is lower-cased, an optional [0x] is removed, and what is
    left has to be 40 hexadecimal digits ([None] stands for the
    [ValueError] raised otherwise).  Character [i] is upper-cased when
    nibble [i] of the Keccak-256 digest of the lower-case digits exceeds 7. *)
Definition to_checksum_address (value : string) : option string :=
  let norm := str_lower value in
  let body := if startswith norm "0x" then str_drop 2 norm else norm in
  let cs := list_ascii_of_string body in
  if (Nat.eqb (List.length cs) 40 && forallb is_lower_hex cs)%bool
  then Some (String "0" (String "x"
               (string_of_list_ascii (checksum_chars (keccak body) cs))))
  else None.

(* ------------------------------------------------------------------ *)
(** ** Constants *)
(* ------------------------------------------------------------------ *)

Definition WETH9 : string := "0xC02aaA39b223FE8D0A0e5C4F27eAD9083C756Cc2".

(** Known router addresses, in the checksummed spelling the source gives
    them in ([to_checksum_address] maps each to itself, see
    [constants_are_checksummed]). *)
Definition ROUTERS : gset string :=
  {[ "0xE592427A0AEce92De3Edee1F18E0157C05861564";
     "0x68b3465833fb72A70ecDF485E0e4C7bD8665Fc45";
     "0xEf1c6E67703c7BD7107eed8303Fbe6EC2554BF6B";
     "0x3fC91A3afd70395Cd496C647d5a6CC9D4B2b7FAD" ]}.

(** [sel(sig)]: the 4-byte function selector. *)
Definition sel (sig : string) : list byte := take 4 (keccak sig).

(** Module-level constants are computed once, when the module is loaded. *)
Definition SWAP_TOPIC0_NOX_LOWER : string :=
  Eval vm_compute in
    str_lower (bytes_hex (keccak "Swap(address,address,int256,int256,uint160,uint128,int24)")).

Definition UR_V3_SWAP_EXACT_IN : Z := 0.
Definition UR_V3_SWAP_EXACT_OUT : Z := 1.

(* ------------------------------------------------------------------ *)
(** ** Data structures *)
(* ------------------------------------------------------------------ *)

Module Intent.
Record t : Type := mk {
  idx : Z;
  callType : string;
  tokenIn : option string;
  tokenOut : option string;
  recipient : option string;
  pathTokens : option (list string)
}.
End Intent.

Module Hop.
Record t : Type := mk {
  logIndex : Z;
  pool : string;
  tokenIn : string;
  tokenOut : string;
  amountInInt : Z;
  amountOutInt : Z
}.
End Hop.

(* ------------------------------------------------------------------ *)
(** ** Swap sequence selection *)
(* ------------------------------------------------------------------ *)

(** The [while] loop of [build_candidates]: [rest] is [hops[j:]], [h0] is
    [hops[i]] (the chain starts as [[h0]], so [chain[-1]] is defined). *)
Fixpoint extend_chain (max_len : Z) (h0 : Hop.t) (chain rest : list Hop.t)
  : list Hop.t :=
  match rest with
  | [] => chain
  | hj :: rest' =>
      if (Z.of_nat (length chain) <? max_len)
         && String.eqb (Hop.tokenOut (List.last chain h0)) (Hop.tokenIn hj)
      then extend_chain max_len h0 (chain ++ [hj]) rest'
      else chain
  end.

Definition build_candidates (hops : list Hop.t) (max_len : Z) : list (list Hop.t) :=
  let n := length hops in
  flat_map
    (fun i =>
       match hops !! i with
       | Some hi =>
           let chain := extend_chain max_len hi [hi] (drop (S i) hops) in
           map (fun L => take L chain) (seq 1 (length chain))
       | None => []
       end)
    (seq 0 n).

Definition seq_tokens (seq : list Hop.t) : list string :=
  match seq with
  | [] => []
  | h0 :: _ => Hop.tokenIn h0 :: map Hop.tokenOut seq
  end.

Definition str_list_eqb (a b : list string) : bool :=
  bool_decide (a = b).

Definition score (seq : list Hop.t) (intent : option Intent.t) : Z * Z :=
  match seq with
  | [] => (-10000, 0)
  | h0 :: _ =>
      let amt_in := Hop.amountInInt h0 in
      let tokens := seq_tokens seq in
      let in_tok := List.hd "" tokens in
      let out_tok := List.last tokens "" in
      match intent with
      | None => (0, amt_in)
      | Some it =>
          if bool_decide (Intent.tokenIn it = None)
             && bool_decide (Intent.tokenOut it = None)
             && negb (truthy_list (Intent.pathTokens it))
          then (0, amt_in)
          else
            let sc := 0 in
            let sc := if truthy_str (Intent.tokenIn it)
                         && bool_decide (Some in_tok = Intent.tokenIn it)
                      then sc + 10 else sc in
            let sc := if truthy_str (Intent.tokenOut it)
                         && bool_decide (Some out_tok = Intent.tokenOut it)
                      then sc + 10 else sc in
            let sc :=
              match Intent.pathTokens it with
              | Some pt =>
                  if truthy_list (Some pt) && (2 <=? Z.of_nat (length pt))
                  then
                    let sc := if str_list_eqb tokens pt then sc + 100
                              else if str_list_eqb tokens (rev pt) then sc + 80
                              else sc in
                    if Z.of_nat (length seq) =? Z.of_nat (length pt) - 1
                    then sc + 15 else sc - 5
                  else sc
              | None => sc
              end in
            (sc, amt_in)
      end
  end.

(* ------------------------------------------------------------------ *)
(** ** Exceptions *)
(* ------------------------------------------------------------------ *)

Inductive exception : Type :=
| RuntimeError (msg : string)
| ValueError (msg : string)
| TypeError (msg : string)
| KeyError (key : string)
| IndexError
| AttributeError (msg : string)
| HTTPError
| DecimalSignal (name : string).

Inductive exn (A : Type) : Type :=
| Ok (a : A)
| Raise (e : exception).
Arguments Ok {A} a.
Arguments Raise {A} e.

Definition exn_bind {A B} (m : exn A) (k : A -> exn B) : exn B :=
  match m with
  | Ok a => k a
  | Raise e => Raise e
  end.

(* ------------------------------------------------------------------ *)
(** ** The part of [decimal] that [to_hr] uses

    Finite decimals [(-1)^sign * coeff * 10^exp] in the context the module
    sets up: [getcontext().prec = 80], rounding [ROUND_HALF_EVEN],
    [Emax = 999999], [Emin = -999999], [clamp = 0], and the default traps
    ([Overflow], [DivisionByZero], [InvalidOperation] raise; [Inexact],
    [Rounded], [Underflow], [Subnormal], [Clamped] only set flags). *)
(* ------------------------------------------------------------------ *)

Module PyDecimal.

Record t : Type := mk { sign : bool; coeff : Z; exp : Z }.

Definition prec : Z := 80.
Definition Emax : Z := 999999.
Definition Emin : Z := -999999.
Definition Etiny : Z := Emin - prec + 1.
Definition Etop : Z := Emax - prec + 1.

Definition digit_char (n : Z) : ascii := ascii_of_nat (48 + Z.to_nat n).

Fixpoint digits_aux (fuel : nat) (n : Z) (acc : list ascii) : list ascii :=
  match fuel with
  | O => acc
  | S f =>
      let acc' := digit_char (n mod 10) :: acc in
      if n / 10 =? 0 then acc' else digits_aux f (n / 10) acc'
  end.

(** [str(n)] for [n >= 0]: the coefficient as the digit string [_int]. *)
Definition digits (n : Z) : list ascii :=
  digits_aux (S (Z.to_nat (Z.log2 n))) n [].

(** [len(self._int)] *)
Definition ndigits (n : Z) : Z := Z.of_nat (length (digits n)).

(** [Decimal(x)] for an [int]: exact, exponent 0. *)
Definition of_int (x : Z) : t := mk (x <? 0) (Z.abs x) 0.

(** [_fix]: round to the context precision and exponent range. *)
Definition fix_ (d : t) : exn t :=
  if coeff d =? 0 then
    Ok (mk (sign d) 0 (Z.min (Z.max (exp d) Etiny) Emax))
  else
    let len := ndigits (coeff d) in
    let exp_min := len + exp d - prec in
    if Etop <? exp_min then Raise (DecimalSignal "Overflow")
    else
      let exp_min := if exp_min <? Etiny then Etiny else exp_min in
      if exp d <? exp_min then
        let digits := len + exp d - exp_min in
        let '(c, e) := if digits <? 0 then (1, exp_min - 1) else (coeff d, exp d) in
        let cut := 10 ^ (exp_min - e) in
        let q := c / cut in
        let r := c mod cut in
        let round_up := (cut <? 2 * r) || ((cut =? 2 * r) && Z.odd q) in
        let q' := if round_up then q + 1 else q in
        let '(q', exp_min) :=
          if round_up && (prec <? ndigits q') then (q' / 10, exp_min + 1)
          else (q', exp_min) in
        if Etop <? exp_min then Raise (DecimalSignal "Overflow")
        else Ok (mk (sign d) q' exp_min)
      else Ok d.

(** The loop of [__truediv__] on an exact quotient:
    [while exp < ideal_exp and coeff % 10 == 0], at most [n] rounds where
    [n] is [ideal_exp - exp]. *)
Fixpoint strip_zeros (n : nat) (c e : Z) : Z * Z :=
  match n with
  | O => (c, e)
  | S n' => if c mod 10 =? 0 then strip_zeros n' (c / 10) (e + 1) else (c, e)
  end.

(** [self / other] *)
Definition truediv (a b : t) : exn t :=
  let sg := xorb (sign a) (sign b) in
  if coeff b =? 0 then
    if coeff a =? 0 then Raise (DecimalSignal "InvalidOperation")
    else Raise (DecimalSignal "DivisionByZero")
  else
    let '(c, e) :=
      if coeff a =? 0 then (0, exp a - exp b)
      else
        let shift := ndigits (coeff b) - ndigits (coeff a) + prec + 1 in
        let e := exp a - exp b - shift in
        let '(q, r) :=
          if 0 <=? shift
          then (coeff a * 10 ^ shift / coeff b, (coeff a * 10 ^ shift) mod coeff b)
          else (coeff a / (coeff b * 10 ^ (- shift)),
                coeff a mod (coeff b * 10 ^ (- shift))) in
        if negb (r =? 0) then ((if q mod 5 =? 0 then q + 1 else q), e)
        else strip_zeros (Z.to_nat (exp a - exp b - e)) q e in
    fix_ (mk sg c e).

(** [Decimal(10) ** Decimal(n)] for an integer [n]: the exact power is
    [1] followed by [zeros] zeros with exponent [n - zeros], where
    [zeros = min(n, prec)] for [n >= 0] (ideal exponent 0) and [0]
    otherwise; the result then goes through [_fix]. *)
Definition pow10 (n : Z) : exn t :=
  let zeros := Z.min (Z.max n 0) prec in
  fix_ (mk false (10 ^ zeros) (n - zeros)).

(** [format(d, "f")]: fixed point, no exponent, no precision given. *)
Definition format_f (d : t) : string :=
  let d := if (coeff d =? 0) && (0 <? exp d) then mk (sign d) 0 0 else d in
  let ds := digits (coeff d) in
  let dotplace := exp d + Z.of_nat (length ds) in
  let '(intpart, fracpart) :=
    if dotplace <? 0 then
      (["0"%char], repeat "0"%char (Z.to_nat (- dotplace)) ++ ds)
    else if Z.of_nat (length ds) <? dotplace then
      (ds ++ repeat "0"%char (Z.to_nat (dotplace - Z.of_nat (length ds))), [])
    else
      ((match take (Z.to_nat dotplace) ds with
        | [] => ["0"%char]
        | ip => ip
        end),
       drop (Z.to_nat dotplace) ds) in
  string_of_list_ascii
    ((if sign d then ["-"%char] else [])
     ++ intpart
     ++ (match fracpart with [] => [] | _ => "."%char :: fracpart end)).
End PyDecimal.

(* ------------------------------------------------------------------ *)
(** ** Utilities *)
(* ------------------------------------------------------------------ *)

Definition s0x (h : string) : string :=
  if startswith h "0x" then str_drop 2 h else h.

Definition chk (a : option string) : exn (option string) :=
  match a with
  | None => Ok None
  | Some a =>
      match to_checksum_address a with
      | Some c => Ok (Some c)
      | None => Raise (ValueError "not an address")
      end
  end.

Definition to_hr (x dec : Z) : exn string :=
  exn_bind (PyDecimal.pow10 dec) (fun p =>
  exn_bind (PyDecimal.truediv (PyDecimal.of_int x) p) (fun d =>
  let s := PyDecimal.format_f d in
  Ok (if str_contains "." s then rstrip "." (rstrip "0" s) else s))).

Definition is_space (c : ascii) : bool :=
  let n := nat_of_ascii c in
  (((9 <=? n) && (n <=? 13)) || (n =? 32))%nat.

(** Whitespace of [str.strip()], for characters below 256. *)
Definition is_space_str (c : ascii) : bool :=
  let n := nat_of_ascii c in
  (is_space c || ((28 <=? n) && (n <=? 31)) || (n =? 133) || (n =? 160))%nat.

(** Whitespace that [int(s, base)] skips around the number. *)
Definition is_space_int (c : ascii) : bool :=
  let n := nat_of_ascii c in
  (is_space c || (n =? 133) || (n =? 160))%nat.

Fixpoint drop_while {A} (p : A -> bool) (l : list A) : list A :=
  match l with
  | [] => []
  | a :: l' => if p a then drop_while p l' else l
  end.

Definition strip_chars (p : ascii -> bool) (cs : list ascii) : list ascii :=
  rev (drop_while p (rev (drop_while p cs))).

(** [s.strip()] *)
Definition str_strip (s : string) : string :=
  string_of_list_ascii (strip_chars is_space_str (list_ascii_of_string s)).

Definition hexval (c : ascii) : option Z :=
  let n := Z.of_nat (nat_of_ascii c) in
  if (48 <=? n) && (n <=? 57) then Some (n - 48)
  else if (97 <=? n) && (n <=? 102) then Some (n - 87)
  else if (65 <=? n) && (n <=? 70) then Some (n - 55)
  else None.

(** Digits of [int(s, 16)]: single underscores are allowed between digits. *)
Fixpoint parse_hex_digits (cs : list ascii) (acc : Z) (after_digit : bool)
  : option Z :=
  match cs with
  | [] => if after_digit then Some acc else None
  | c :: r =>
      if Ascii.eqb c "_" then
        if after_digit then parse_hex_digits r acc false else None
      else
        match hexval c with
        | Some v => parse_hex_digits r (16 * acc + v) true
        | None => None
        end
  end.

(** [int(s, 16)]: surrounding whitespace, an optional sign, an optional
    [0x] or [0X] (which may be followed by one underscore), then digits.
    [None] stands for the [ValueError]. *)
Definition py_int16 (s : string) : option Z :=
  let cs := strip_chars is_space_int (list_ascii_of_string s) in
  let '(neg, cs) :=
    match cs with
    | "-"%char :: r => (true, r)
    | "+"%char :: r => (false, r)
    | _ => (false, cs)
    end in
  let body :=
    match cs with
    | "0"%char :: x :: r =>
        if Ascii.eqb x "x" || Ascii.eqb x "X" then
          match r with
          | "_"%char :: r' => r'
          | _ => r
          end
        else cs
    | _ => cs
    end in
  match parse_hex_digits body 0 false with
  | Some v => Some (if neg then - v else v)
  | None => None
  end.

Definition h2i (h : string) : exn Z :=
  match py_int16 h with
  | Some v => Ok v
  | None => Raise (ValueError "invalid literal for int() with base 16")
  end.

Definition byte_of_Z (n : Z) : byte := Keccak.byte_of_N (Z.to_N n).

(** [bytes.fromhex(s)]: two hexadecimal digits per byte, ASCII whitespace
    is skipped between bytes. *)
Fixpoint fromhex_chars (cs : list ascii) : option (list byte) :=
  match cs with
  | [] => Some []
  | c1 :: r1 =>
      if is_space c1 then fromhex_chars r1
      else
        match r1 with
        | c2 :: r2 =>
            match hexval c1, hexval c2, fromhex_chars r2 with
            | Some hi, Some lo, Some bs => Some (byte_of_Z (16 * hi + lo) :: bs)
            | _, _, _ => None
            end
        | [] => None
        end
  end.

Definition fromhex (s : string) : exn (list byte) :=
  match fromhex_chars (list_ascii_of_string s) with
  | Some bs => Ok bs
  | None => Raise (ValueError "non-hexadecimal number found in fromhex()")
  end.

(** [int.from_bytes(b, "big")] *)
Definition int_from_bytes_big (b : list byte) : Z :=
  fold_left (fun acc x => 256 * acc + Z.of_N (Byte.to_N x)) b 0.

(** [b[-k:]] for [k > 0] *)
Definition bytes_suffix (k : nat) (b : list byte) : list byte :=
  drop (length b - k) b.

Definition abi_call_selector (sig : string) : string :=
  String.append "0x" (bytes_hex (sel sig)).

(** The checksummed address of a 20-byte slice:
    [to_checksum_address("0x" + b.hex())]. *)
Definition checksum_of_bytes (b : list byte) : option string :=
  to_checksum_address (String.append "0x" (bytes_hex b)).

(* ------------------------------------------------------------------ *)
(** ** Values returned by [eth_abi.decode] *)
(* ------------------------------------------------------------------ *)

(** [address] decodes to a [str], [uintN]/[intN] to an [int], [bool] to a
    [bool], [bytes] to [bytes], a tuple or an array to a [tuple]. *)
Inductive abi_value : Type :=
| VStr (s : string)
| VInt (n : Z)
| VBool (b : bool)
| VBytes (b : list byte)
| VTuple (l : list abi_value).

(** [v[i]] on a decoded tuple. *)
Definition value_index (v : abi_value) (i : nat) : exn abi_value :=
  match v with
  | VTuple l =>
      match l !! i with
      | Some x => Ok x
      | None => Raise IndexError
      end
  | _ => Raise (TypeError "value is not a tuple")
  end.

(** [to_checksum_address(v)] on a decoded value: a hex string, or the 20
    raw bytes of an address. *)
Definition value_checksum (v : abi_value) : exn string :=
  let r :=
    match v with
    | VStr s => to_checksum_address s
    | VBytes b => if Nat.eqb (length b) 20 then checksum_of_bytes b else None
    | _ => None
    end in
  match r with
  | Some a => Ok a
  | None => Raise (ValueError "not an address")
  end.

(** [int(v)] on a decoded integer. *)
Definition value_int (v : abi_value) : exn Z :=
  match v with
  | VInt n => Ok n
  | VBool b => Ok (if b then 1 else 0)
  | _ => Raise (TypeError "value is not an int")
  end.

(** Truth value of a decoded value. *)
Definition value_truthy (v : abi_value) : bool :=
  match v with
  | VStr s => negb (String.eqb s "")
  | VInt n => negb (n =? 0)
  | VBool b => b
  | VBytes b => negb (Nat.eqb (length b) 0)
  | VTuple l => negb (Nat.eqb (length l) 0)
  end.

(** A decoded call, the dict [{"name", "args", "raw"}] of [walk_calls]. *)
Record DecodedCall : Type := mkCall {
  name : string;
  args : list abi_value;
  raw : string
}.

(* ------------------------------------------------------------------ *)
(** ** Selector decode registry *)
(* ------------------------------------------------------------------ *)

Definition registry : Type := list (list byte * list (string * list string)).

Definition bytes_eqb (a b : list byte) : bool := bool_decide (a = b).

Fixpoint registry_get (r : registry) (k : list byte)
  : option (list (string * list string)) :=
  match r with
  | [] => None
  | (k', v) :: r' => if bytes_eqb k k' then Some v else registry_get r' k
  end.

(** [SELECTOR_CANDIDATES.setdefault(sel(sig), []).append((name, types))] *)
Fixpoint registry_append (r : registry) (k : list byte) (c : string * list string)
  : registry :=
  match r with
  | [] => [(k, [c])]
  | (k', v) :: r' =>
      if bytes_eqb k k' then (k', v ++ [c]) :: r'
      else (k', v) :: registry_append r' k c
  end.

Definition add_selector (r : registry) (sig name : string) (types : list string)
  : registry :=
  registry_append r (sel sig) (name, types).

Definition SELECTOR_CANDIDATES : registry :=
  Eval vm_compute in
  let r := [] in
  (* SwapRouter (deadline in struct) *)
  let r := add_selector r
    "exactInputSingle((address,address,uint24,address,uint256,uint256,uint256,uint160))"
    "exactInputSingle"
    ["(address,address,uint24,address,uint256,uint256,uint256,uint160)"] in
  let r := add_selector r
    "exactOutputSingle((address,address,uint24,address,uint256,uint256,uint256,uint160))"
    "exactOutputSingle"
    ["(address,address,uint24,address,uint256,uint256,uint256,uint160)"] in
  let r := add_selector r
    "exactInput((bytes,address,uint256,uint256,uint256))"
    "exactInput" ["(bytes,address,uint256,uint256,uint256)"] in
  let r := add_selector r
    "exactOutput((bytes,address,uint256,uint256,uint256))"
    "exactOutput" ["(bytes,address,uint256,uint256,uint256)"] in
  (* SwapRouter02 (no deadline in struct) *)
  let r := add_selector r
    "exactInputSingle((address,address,uint24,address,uint256,uint256,uint160))"
    "exactInputSingle"
    ["(address,address,uint24,address,uint256,uint256,uint160)"] in
  let r := add_selector r
    "exactOutputSingle((address,address,uint24,address,uint256,uint256,uint160))"
    "exactOutputSingle"
    ["(address,address,uint24,address,uint256,uint256,uint160)"] in
  let r := add_selector r
    "exactInput((bytes,address,uint256,uint256))"
    "exactInput" ["(bytes,address,uint256,uint256)"] in
  let r := add_selector r
    "exactOutput((bytes,address,uint256,uint256))"
    "exactOutput" ["(bytes,address,uint256,uint256)"] in
  (* multicall *)
  let r := add_selector r "multicall(bytes[])" "multicall" ["bytes[]"] in
  let r := add_selector r "multicall(uint256,bytes[])" "multicall"
             ["uint256"; "bytes[]"] in
  (* payout helpers *)
  let r := add_selector r "sweepToken(address,uint256,address)" "sweepToken"
             ["address"; "uint256"; "address"] in
  let r := add_selector r "unwrapWETH9(uint256,address)" "unwrapWETH9"
             ["uint256"; "address"] in
  let r := add_selector r "refundETH()" "refundETH" [] in
  (* Universal Router execute *)
  let r := add_selector r "execute(bytes,bytes[])" "urExecute"
             ["bytes"; "bytes[]"] in
  let r := add_selector r "execute(bytes,bytes[],uint256)" "urExecute"
             ["bytes"; "bytes[]"; "uint256"] in
  r.

(* ------------------------------------------------------------------ *)
(** ** The JSON-RPC collaborator *)
(* ------------------------------------------------------------------ *)

(** The objects the endpoint answers with; a field that may be missing is
    an [option].  An answer of the endpoint is an [option] of such an
    object: [None] stands for a result that Python takes as false
    ([null], or an object with no member at all), which is what
    [if not tx] and [if not receipt] test; a [Tx] or a [Receipt] stands
    for an object with a member or more, of which the decoder reads the
    ones listed here (all three may be missing from it). *)
Record Tx : Type := mkTx {
  tx_from : option string;
  tx_input : option string;
  tx_value : option string
}.

Record Log : Type := mkLog {
  log_address : option string;
  log_topics : option (list string);
  log_data : option string;
  log_logIndex : option string
}.

Record Receipt : Type := mkReceipt {
  receipt_status : option string;
  receipt_logs : option (list Log)
}.

(** What one POST gives back: the ["result"] member, an ["error"] member,
    or a failure of the transport ([raise_for_status]). *)
Inductive rpc_reply (A : Type) : Type :=
| Reply (result : A)
| ReplyError (err : string)
| HttpFailure.
Arguments Reply {A} result.
Arguments ReplyError {A} err.
Arguments HttpFailure {A}.

(** The state of an [RPC] object: the request counter and the [eth_call]
    memo table. *)
Record RPC : Type := mkRPC {
  url : string;
  timeout : Z;
  _id : Z;
  _eth_call_cache : gmap (string * string * string) string
}.

Definition RPC_init (url : string) : RPC := mkRPC url 25 1 ∅.

(** Computations that use the [RPC] object and may raise. *)
Definition M (A : Type) : Type := RPC -> exn A * RPC.

Definition ret {A} (a : A) : M A := fun rpc => (Ok a, rpc).
Definition raise {A} (e : exception) : M A := fun rpc => (Raise e, rpc).
Definition lift {A} (r : exn A) : M A := fun rpc => (r, rpc).
Definition bind {A B} (m : M A) (k : A -> M B) : M B :=
  fun rpc =>
    match m rpc with
    | (Ok a, rpc') => k a rpc'
    | (Raise e, rpc') => (Raise e, rpc')
    end.

(** [try: m except Exception: h] *)
Definition try_except {A} (m : M A) (h : M A) : M A :=
  fun rpc =>
    match m rpc with
    | (Ok a, rpc') => (Ok a, rpc')
    | (Raise _, rpc') => h rpc'
    end.

Notation "'let?' x ':=' e 'in' k" := (exn_bind e (fun x => k))
  (at level 10, x pattern, e at level 100, k at level 200).
Notation "'let*' x ':=' m 'in' k" := (bind m (fun x => k))
  (at level 10, x pattern, m at level 100, k at level 200).

Definition option_get {A} (o : option A) (e : exception) : exn A :=
  match o with
  | Some a => Ok a
  | None => Raise e
  end.

(** The result record of a decode, and the debug members of [--all]. *)
Record SwapResult : Type := mkResult {
  res_sender : option string;
  res_recipient : option string;
  res_tokenIn : string;
  res_tokenOut : string;
  res_amountIn : string;
  res_amountOut : string
}.

Record SwapCandidate : Type := mkSwapCandidate {
  sc_tokenIn : string;
  sc_tokenOut : string;
  sc_amountIn : string;
  sc_amountOut : string;
  sc_hopCount : Z;
  sc_pathTokens : list string;
  sc_firstLogIndex : Z;
  sc_lastLogIndex : Z
}.

Record Selected : Type := mkSelected {
  sel_score : Z;
  sel_tieBreakerAmountInInt : Z;
  sel_intentUsed : option Intent.t
}.

Record DecodeOutput : Type := mkOutput {
  out_result : SwapResult;
  out_debug : option (list SwapCandidate * Selected)
}.

(** How a run of [main] ends. *)
Inductive outcome : Type :=
| Exit (code : Z) (stderr : list string)
| Printed (out : DecodeOutput).

(* ------------------------------------------------------------------ *)
(** ** Path codec *)
(* ------------------------------------------------------------------ *)

(** The loop of [parse_path]; [rest] is [p[i:]]. *)
Fixpoint parse_path_loop (fuel : nat) (rest : list byte) (toks : list string)
  : exn (list string) :=
  match fuel with
  | O => Ok toks
  | S fuel' =>
      match rest with
      | [] => Ok toks                                    (* i < len(p) fails *)
      | _ =>
          if (length rest <? 3)%nat then Ok toks         (* i + 3 > len(p) *)
          else
            let rest := drop 3 rest in
            if (length rest <? 20)%nat then Ok toks      (* i + 20 > len(p) *)
            else
              let? a := option_get (checksum_of_bytes (take 20 rest))
                          (ValueError "not an address") in
              parse_path_loop fuel' (drop 20 rest) (toks ++ [a])
      end
  end.

Definition parse_path (p : list byte) : exn (list string) :=
  if (length p <? 20)%nat then Ok []
  else
    let? a := option_get (checksum_of_bytes (take 20 p))
                (ValueError "not an address") in
    parse_path_loop (length p) (drop 20 p) [a].

(* ------------------------------------------------------------------ *)
(** ** The decoder

    [abi_decode types data] is [eth_abi.decode] ([None] when it raises);
    the three [node_*] functions are the endpoint behind the [RPC] object,
    which may answer differently from one request id to the next. *)
(* ------------------------------------------------------------------ *)

Section Decoder.

Variable abi_decode : list string -> list byte -> option (list abi_value).
Variable node_get_tx : Z -> string -> rpc_reply (option Tx).
Variable node_get_receipt : Z -> string -> rpc_reply (option Receipt).
Variable node_eth_call : Z -> string -> string -> string -> rpc_reply string.

(** *** RPC client *)

(** [RPC.call]: the counter is bumped before the request goes out. *)
Definition rpc_call {A} (post : Z -> rpc_reply A) : M A :=
  fun rpc =>
    let rpc' := mkRPC (url rpc) (timeout rpc) (_id rpc + 1) (_eth_call_cache rpc) in
    match post (_id rpc) with
    | Reply r => (Ok r, rpc')
    | ReplyError err => (Raise (RuntimeError (String.append "RPC error: " err)), rpc')
    | HttpFailure => (Raise HTTPError, rpc')
    end.

Definition get_tx (tx_hash : string) : M (option Tx) :=
  rpc_call (fun i => node_get_tx i tx_hash).

Definition get_receipt (tx_hash : string) : M (option Receipt) :=
  rpc_call (fun i => node_get_receipt i tx_hash).

Definition eth_call (to data block : string) : M string :=
  let* to' := lift (option_get (to_checksum_address to)
                      (ValueError "not an address")) in
  let key := (to', data, block) in
  fun rpc =>
    match _eth_call_cache rpc !! key with
    | Some hit => (Ok hit, rpc)
    | None =>
        match rpc_call (fun i => node_eth_call i to' data block) rpc with
        | (Ok res, rpc') =>
            (Ok res, mkRPC (url rpc') (timeout rpc') (_id rpc')
                       (<[key := res]> (_eth_call_cache rpc')))
        | (Raise e, rpc') => (Raise e, rpc')
        end
    end.

Definition call_addr (contract sig : string) : M string :=
  let* r := eth_call contract (abi_call_selector sig) "latest" in
  let* b := lift (fromhex (s0x r)) in
  if (length b <? 32)%nat then raise (RuntimeError "bad eth_call return")
  else lift (option_get (checksum_of_bytes (bytes_suffix 20 b))
               (ValueError "not an address")).

Definition call_u8 (contract sig : string) : M Z :=
  let* r := eth_call contract (abi_call_selector sig) "latest" in
  let* b := lift (fromhex (s0x r)) in
  if (length b <? 32)%nat then raise (RuntimeError "bad eth_call return")
  else ret (int_from_bytes_big (bytes_suffix 32 b)).

(** *** Calldata decoding *)

(** The [for name, types in cands] loop of [decode_input]. *)
Fixpoint try_candidates (cands : list (string * list string)) (payload : list byte)
  : option (string * list abi_value) :=
  match cands with
  | [] => None
  | (name, types) :: rest =>
      match types with
      | [] => Some (name, [])
      | _ =>
          match abi_decode types payload with
          | Some vals => Some (name, vals)
          | None => try_candidates rest payload
          end
      end
  end.

Definition decode_input (input_hex : string)
  : exn (option (string * list abi_value)) :=
  if String.eqb input_hex "" || String.eqb input_hex "0x"
     || (str_len input_hex <? 10)
  then Ok None
  else
    let? b := fromhex (s0x input_hex) in
    let selector := take 4 b in
    match registry_get SELECTOR_CANDIDATES selector with
    | None | Some [] => Ok None
    | Some cands => Ok (try_candidates cands (drop 4 b))
    end.

Definition is_single (name : string) : bool :=
  String.eqb name "exactInputSingle" || String.eqb name "exactOutputSingle".

Definition is_multi (name : string) : bool :=
  String.eqb name "exactInput" || String.eqb name "exactOutput".

Definition value_bytes (v : abi_value) : exn (list byte) :=
  match v with
  | VBytes b => Ok b
  | _ => Raise (TypeError "value is not bytes")
  end.

Definition decode_intent (name : string) (args : list abi_value) (idx : Z)
  : exn Intent.t :=
  if is_single name then
    let? p := option_get (args !! 0%nat) IndexError in
    let? p0 := value_index p 0 in
    let? tin := value_checksum p0 in
    let? p1 := value_index p 1 in
    let? tout := value_checksum p1 in
    let? p3 := value_index p 3 in
    let? rec := value_checksum p3 in
    Ok (Intent.mk idx name (Some tin) (Some tout) (Some rec) None)
  else if is_multi name then
    let? p := option_get (args !! 0%nat) IndexError in
    let? p0 := value_index p 0 in
    let? path := value_bytes p0 in
    let? pt := parse_path path in
    let? p1 := value_index p 1 in
    let? rec := value_checksum p1 in
    match pt with
    | [] => Ok (Intent.mk idx name None None (Some rec) (Some pt))
    | t0 :: _ =>
        if String.eqb name "exactInput"
        then Ok (Intent.mk idx name (Some t0) (Some (List.last pt t0))
                   (Some rec) (Some pt))
        else Ok (Intent.mk idx name (Some (List.last pt t0)) (Some t0)
                   (Some rec) (Some pt))
    end
  else Ok (Intent.mk idx name None None None None).

Definition ur_swap_types : list string :=
  ["address"; "uint256"; "uint256"; "bytes"; "bool"].

(** The body of one [try] block of [decode_universal_router_intents]:
    [Ok None] when the path is empty, [Raise] for anything the
    [except Exception: pass] swallows. *)
Definition ur_swap_intent (exact_out : bool) (input : abi_value) (idx : Z)
  : exn (option Intent.t) :=
  let? input := value_bytes input in
  let? vals := option_get (abi_decode ur_swap_types input)
                 (ValueError "abi decode") in
  match vals with
  | [recipient; _; _; path; _payer] =>
      let? path := value_bytes path in
      let? pt := parse_path path in
      match pt with
      | [] => Ok None
      | t0 :: _ =>
          let? rec := value_checksum recipient in
          if exact_out
          then Ok (Some (Intent.mk idx "urV3SwapExactOut"
                           (Some (List.last pt t0)) (Some t0) (Some rec) (Some pt)))
          else Ok (Some (Intent.mk idx "urV3SwapExactIn"
                           (Some t0) (Some (List.last pt t0)) (Some rec) (Some pt)))
      end
  | _ => Raise (ValueError "unpack")
  end.

(** The loop over [enumerate(commands)]: [i] is the index of the head of
    [commands], [out] the intents appended so far. *)
Fixpoint ur_loop (commands : list byte) (i : nat) (inputs : list abi_value)
    (base_idx : Z) (out : list Intent.t) : list Intent.t :=
  match commands with
  | [] => out
  | cmd :: rest =>
      match inputs !! i with
      | None => out                                   (* i >= len(inputs) *)
      | Some input =>
          let cmd_type := Z.land (Z.of_N (Byte.to_N cmd)) 31 in
          let out :=
            if cmd_type =? UR_V3_SWAP_EXACT_IN then
              match ur_swap_intent false input (base_idx + Z.of_nat i) with
              | Ok (Some it) => out ++ [it]
              | _ => out
              end
            else if cmd_type =? UR_V3_SWAP_EXACT_OUT then
              match ur_swap_intent true input (base_idx + Z.of_nat i) with
              | Ok (Some it) => out ++ [it]
              | _ => out
              end
            else out in
          ur_loop rest (S i) inputs base_idx out
      end
  end.

Definition decode_universal_router_intents (commands : list byte)
    (inputs : list abi_value) (base_idx : Z) : list Intent.t :=
  ur_loop commands 0 inputs base_idx [].

(** [walk_calls]: [fuel] is [max_depth - depth + 1], so [O] is the case
    [depth > max_depth]. *)
Fixpoint walk_calls_fuel (fuel : nat) (input_hex : string)
  : exn (list DecodedCall) :=
  match fuel with
  | O => Ok []
  | S fuel' =>
      let? d := decode_input input_hex in
      match d with
      | None => Ok []
      | Some (name, args) =>
          let out := [mkCall name args input_hex] in
          if String.eqb name "multicall" then
            let datas :=
              match args with
              | [a] => Some a
              | [_; b] => Some b
              | _ => None
              end in
            match datas with
            | Some (VTuple l) =>
                fold_left
                  (fun acc b =>
                     let? out := acc in
                     match b with
                     | VBytes bb =>
                         let? sub := walk_calls_fuel fuel'
                                       (String.append "0x" (bytes_hex bb)) in
                         Ok (out ++ sub)
                     | _ => Raise (AttributeError "hex")
                     end)
                  l (Ok out)
            | Some v =>
                if value_truthy v then Raise (TypeError "datas is not a tuple")
                else Ok out
            | None => Ok out
            end
          else Ok out
      end
  end.

Definition walk_calls (input_hex : string) (depth max_depth : Z)
  : exn (list DecodedCall) :=
  walk_calls_fuel (Z.to_nat (max_depth - depth + 1)) input_hex.

(** *** Recipient inference *)

(** One round of the loop of [infer_recipient]. *)
Definition infer_step (token_out : option string) (final : string)
    (c : DecodedCall) : exn string :=
  let? final :=
    if String.eqb (name c) "sweepToken" then
      match args c with
      | [token; _; rec] =>
          let? token := value_checksum token in
          let? rec := value_checksum rec in
          match token_out with
          | None => Ok rec
          | Some t => Ok (if String.eqb token t then rec else final)
          end
      | _ => Raise (ValueError "unpack")
      end
    else Ok final in
  if String.eqb (name c) "unwrapWETH9" then
    match args c with
    | [_; rec] => value_checksum rec
    | _ => Raise (ValueError "unpack")
    end
  else Ok final.

Definition infer_recipient (calls : list DecodedCall)
    (swap_recipient token_out : option string) : exn (option string) :=
  if negb (truthy_str swap_recipient) then Ok None
  else
    let? swap_recipient :=
      option_get (swap_recipient ≫= to_checksum_address)
        (ValueError "not an address") in
    if negb (bool_decide (swap_recipient ∈ ROUTERS)) then Ok (Some swap_recipient)
    else
      let? token_out :=
        if truthy_str token_out then
          let? t := option_get (token_out ≫= to_checksum_address)
                      (ValueError "not an address") in
          Ok (Some t)
        else Ok None in
      let? final :=
        fold_left (fun acc c => let? final := acc in infer_step token_out final c)
          calls (Ok swap_recipient) in
      Ok (Some final).

Definition has_unwrap (calls : list DecodedCall) : bool :=
  existsb (fun c => String.eqb (name c) "unwrapWETH9") calls.

(** *** Log parsing *)

Definition swap_data_types : list string :=
  ["int256"; "int256"; "uint160"; "uint128"; "int24"].

(** The direction test on the two signed deltas of a [Swap] event:
    [(tin, tout, ain, aout)], or [None] for the [else: continue]. *)
Definition swap_direction (t0 t1 : string) (a0 a1 : Z)
  : option (string * string * Z * Z) :=
  if (0 <? a0) && (a1 <? 0) then Some (t0, t1, a0, - a1)
  else if (0 <? a1) && (a0 <? 0) then Some (t1, t0, a1, - a0)
  else None.

(** The [for lg in logs] loop of [extract_hops], with its two locals. *)
Fixpoint extract_hops_loop (logs : list Log) (out : list Hop.t)
    (pool_tok_cache : gmap string (string * string)) : M (list Hop.t) :=
  match logs with
  | [] => ret out
  | lg :: rest =>
      match default [] (log_topics lg) with
      | [] => extract_hops_loop rest out pool_tok_cache
      | topic0 :: _ =>
          if negb (String.eqb (str_lower (s0x topic0)) SWAP_TOPIC0_NOX_LOWER)
          then extract_hops_loop rest out pool_tok_cache
          else
            let* address := lift (option_get (log_address lg) (KeyError "address")) in
            let* pool := lift (option_get (to_checksum_address address)
                                 (ValueError "not an address")) in
            let* logi := lift (h2i (default "0x0" (log_logIndex lg))) in
            let* data_hex := lift (option_get (log_data lg) (KeyError "data")) in
            let* data := lift (fromhex (s0x data_hex)) in
            match abi_decode swap_data_types data with
            | Some [a0; a1; _; _; _] =>
                let* a0 := lift (value_int a0) in
                let* a1 := lift (value_int a1) in
                let* (t0, t1, pool_tok_cache) :=
                  match pool_tok_cache !! pool with
                  | Some (t0, t1) => ret (t0, t1, pool_tok_cache)
                  | None =>
                      let* t0 := call_addr pool "token0()" in
                      let* t1 := call_addr pool "token1()" in
                      ret (t0, t1, <[pool := (t0, t1)]> pool_tok_cache)
                  end in
                match swap_direction t0 t1 a0 a1 with
                | Some (tin, tout, ain, aout) =>
                    extract_hops_loop rest
                      (out ++ [Hop.mk logi pool tin tout ain aout]) pool_tok_cache
                | None => extract_hops_loop rest out pool_tok_cache
                end
            | _ => extract_hops_loop rest out pool_tok_cache
            end
      end
  end.

(** [out.sort(key=lambda x: x.logIndex)]: a stable sort. *)
Fixpoint insert_by_logIndex (h : Hop.t) (l : list Hop.t) : list Hop.t :=
  match l with
  | [] => [h]
  | x :: l' =>
      if Hop.logIndex h <=? Hop.logIndex x then h :: x :: l'
      else x :: insert_by_logIndex h l'
  end.

Definition sort_by_logIndex (l : list Hop.t) : list Hop.t :=
  fold_right insert_by_logIndex [] l.

Definition extract_hops (logs : list Log) : M (list Hop.t) :=
  let* out := extract_hops_loop logs [] ∅ in
  ret (sort_by_logIndex out).

(** *** Selection *)

(** [a > b] on pairs of integers. *)
Definition pair_gt (a b : Z * Z) : bool :=
  (fst b <? fst a) || ((fst a =? fst b) && (snd b <? snd a)).

(** The three locals [best_sc], [best], [best_intent]. *)
Definition selection : Type := (Z * Z) * option (list Hop.t) * option Intent.t.

Definition selection_init : selection := ((-10000, -1), None, None).

Definition select_step (it : option Intent.t) (st : selection) (seq : list Hop.t)
  : selection :=
  let sc := score seq it in
  if pair_gt sc (fst (fst st)) then (sc, Some seq, it) else st.

Definition select_best (candidates : list (list Hop.t)) (intents : list Intent.t)
  : selection :=
  match intents with
  | [] => fold_left (select_step None) candidates selection_init
  | _ =>
      fold_left
        (fun st it => fold_left (select_step (Some it)) candidates st)
        intents selection_init
  end.

(** *** Main decode *)

(** The loop that turns the decoded calls into intents; [idx] is the
    index of the head of [calls]. *)
Fixpoint collect_intents (calls : list DecodedCall) (idx : Z)
    (intents : list Intent.t) : exn (list Intent.t) :=
  match calls with
  | [] => Ok intents
  | c :: rest =>
      if is_single (name c) || is_multi (name c) then
        let? it := decode_intent (name c) (args c) idx in
        collect_intents rest (idx + 1) (intents ++ [it])
      else if String.eqb (name c) "urExecute" then
        match args c with
        | commands :: inputs :: _ =>
            let? commands := value_bytes commands in
            let? inputs :=
              match inputs with
              | VTuple l => Ok l
              | _ => Raise (TypeError "inputs is not a tuple")
              end in
            collect_intents rest (idx + 1)
              (intents ++ decode_universal_router_intents commands inputs
                            (idx * 10000))
        | _ => collect_intents rest (idx + 1) intents
        end
      else collect_intents rest (idx + 1) intents
  end.

(** [a or b] on optional strings. *)
Definition py_or (a b : option string) : option string :=
  if truthy_str a then a else b.

(** The closure [decimals_of], with its [dec_cache] made explicit. *)
Definition decimals_of (dec_cache : gmap string Z) (tok : string)
  : M (Z * gmap string Z) :=
  let* tok := lift (option_get (to_checksum_address tok)
                      (ValueError "not an address")) in
  match dec_cache !! tok with
  | Some v => ret (v, dec_cache)
  | None =>
      let* v := try_except (call_u8 tok "decimals()") (ret 18) in
      ret (v, <[tok := v]> dec_cache)
  end.

(** The debug loop over all candidates. *)
Fixpoint all_swap_candidates (candidates : list (list Hop.t))
    (dec_cache : gmap string Z) (all_swaps : list SwapCandidate)
  : M (list SwapCandidate) :=
  match candidates with
  | [] => ret all_swaps
  | seq :: rest =>
      let* first := lift (option_get (head seq) IndexError) in
      let last := List.last seq first in
      let tin := Hop.tokenIn first in
      let tout := Hop.tokenOut last in
      let* (d_in, dec_cache) := decimals_of dec_cache tin in
      let* a_in := lift (to_hr (Hop.amountInInt first) d_in) in
      let* (d_out, dec_cache) := decimals_of dec_cache tout in
      let* a_out := lift (to_hr (Hop.amountOutInt last) d_out) in
      all_swap_candidates rest dec_cache
        (all_swaps ++ [mkSwapCandidate tin tout a_in a_out
                         (Z.of_nat (length seq)) (seq_tokens seq)
                         (Hop.logIndex first) (Hop.logIndex last)])
  end.

Definition unselectable : exception :=
  RuntimeError "Could not select a swap sequence from Swap events.".

Definition decode_uniswap_v3_swap (tx_hash : string) (return_all : bool)
  : M DecodeOutput :=
  let* tx := get_tx tx_hash in
  let* tx := lift (option_get tx (RuntimeError "Transaction not found")) in
  let* receipt := get_receipt tx_hash in
  let* receipt := lift (option_get receipt
                          (RuntimeError "Receipt not found (pending?)")) in
  if String.eqb (default "0x1" (receipt_status receipt)) "0x0"
  then raise (RuntimeError "Transaction failed (reverted)")
  else
    let* sender := lift (chk (tx_from tx)) in
    let input_hex := default "0x" (tx_input tx) in
    let* tx_value_wei := lift (h2i (default "0x0" (tx_value tx))) in
    (* Decode calls (multicall nesting) *)
    let* calls := lift (walk_calls input_hex 0 6) in
    (* Decode intents *)
    let* intents := lift (collect_intents calls 0 []) in
    (* Extract swap hops (source of truth) *)
    let* hops := extract_hops (default [] (receipt_logs receipt)) in
    match hops with
    | [] => raise (RuntimeError
              "No Uniswap V3 Pool Swap events found in receipt logs.")
    | _ =>
        let candidates := build_candidates hops 8 in
        (* Pick best candidate *)
        let '(best_sc, best, best_intent) := select_best candidates intents in
        match best with
        | None | Some [] => raise unselectable
        | Some (first :: _ as best) =>
            let last := List.last best first in
            let token_in := Hop.tokenIn first in
            let token_out := Hop.tokenOut last in
            let amt_in_int := Hop.amountInInt first in
            let amt_out_int := Hop.amountOutInt last in
            (* Recipient inference *)
            let swap_rec := best_intent ≫= Intent.recipient in
            let* inferred := lift (infer_recipient calls swap_rec (Some token_out)) in
            let recipient := py_or (py_or inferred swap_rec) sender in
            let* (din, dec_cache) := decimals_of ∅ token_in in
            let* (dout, dec_cache) := decimals_of dec_cache token_out in
            let* amount_in := lift (to_hr amt_in_int din) in
            let* amount_out := lift (to_hr amt_out_int dout) in
            let result := mkResult sender recipient token_in token_out
                            amount_in amount_out in
            if negb return_all then ret (mkOutput result None)
            else
              let* all_swaps := all_swap_candidates candidates dec_cache [] in
              ret (mkOutput result
                     (Some (all_swaps,
                            mkSelected (fst best_sc) (snd best_sc) best_intent)))
        end
    end.

(** *** CLI *)

Definition exception_message (e : exception) : string :=
  match e with
  | RuntimeError m | ValueError m | TypeError m | AttributeError m => m
  | KeyError k => k
  | IndexError => "list index out of range"
  | HTTPError => "HTTP error"
  | DecimalSignal n => n
  end.

(** [main]: [argv] is [sys.argv], [rpc_url_env] is the environment
    variable RPC_URL.  What goes to stderr is kept with the exit code
    (the quotation marks of the usage example are left out). *)
Definition main (argv : list string) (rpc_url_env : option string) : outcome :=
  match argv with
  | _ :: arg1 :: more =>
      let tx_hash := str_strip arg1 in
      let return_all := bool_decide ("--all" ∈ more) in
      if negb (startswith tx_hash "0x" && (str_len tx_hash =? 66))
      then Exit 1 ["Invalid tx hash (expect 0x + 64 hex chars)."]
      else
        let rpc_url := str_strip (default "" rpc_url_env) in
        if String.eqb rpc_url "" then
          Exit 1 ["Please set RPC_URL environment variable (Ethereum mainnet JSON-RPC endpoint)."]
        else
          match fst (decode_uniswap_v3_swap tx_hash return_all (RPC_init rpc_url)) with
          | Ok out => Printed out
          | Raise e => Exit 2 [String.append "Error: " (exception_message e)]
          end
  | _ =>
      Exit 1 ["Usage: python uniswap_v3_decoder.py <tx_hash> [--all]";
              "Example: export RPC_URL=https://ethereum-rpc.publicnode.com"]
  end.

(* ---------------------------------------------------------------- *)
(** ** Specifications, in the words of the design document *)
(* ---------------------------------------------------------------- *)

(** *** Scoring (section 4.7) *)

(** An intent is fully empty when it declares no token and no path. *)
Definition intent_fully_empty (it : Intent.t) : bool :=
  match Intent.tokenIn it, Intent.tokenOut it, Intent.pathTokens it with
  | None, None, (None | Some []) => true
  | _, _, _ => false
  end.

(** +100 for the exact path, else +80 for the reversed path; +15 when the
    hop count is [len(path) - 1], else -5. *)
Definition path_bonus (cand : list Hop.t) (pt : list string) : Z :=
  (if bool_decide (seq_tokens cand = pt) then 100
   else if bool_decide (seq_tokens cand = rev pt) then 80
   else 0)
  + (if bool_decide (length cand = (length pt - 1)%nat) then 15 else -5).

Definition score_spec (first last : Hop.t) (cand : list Hop.t)
    (intent : option Intent.t) : Z * Z :=
  match intent with
  | None => (0, Hop.amountInInt first)
  | Some it =>
      if intent_fully_empty it then (0, Hop.amountInInt first)
      else
        ((if bool_decide (Intent.tokenIn it = Some (Hop.tokenIn first))
          then 10 else 0)
         + (if bool_decide (Intent.tokenOut it = Some (Hop.tokenOut last))
            then 10 else 0)
         + (match Intent.pathTokens it with
            | Some pt =>
                if bool_decide (2 <= length pt)%nat then path_bonus cand pt else 0
            | None => 0
            end),
         Hop.amountInInt first)
  end.

(** The tokens an intent declares are addresses, never the empty
    string. *)
Definition declared_tokens_nonempty (intent : option Intent.t) : Prop :=
  match intent with
  | None => True
  | Some it => Intent.tokenIn it <> Some "" /\ Intent.tokenOut it <> Some ""
  end.

(** *** Candidate sequences (sections 3 and 4.6) *)

(** The chain invariant: each hop takes in what the hop before it put
    out. *)
Definition chained (c : list Hop.t) : Prop :=
  forall i a b, c !! i = Some a -> c !! (S i) = Some b ->
                Hop.tokenIn b = Hop.tokenOut a.

Definition MAX_CHAIN : nat := 8.

(** [chain] is the maximal chain that starts at index [i]: the [k]
    consecutive hops from [i] on, chained, at most [MAX_CHAIN] long, and
    stopped only by the bound, by the end of the list, or by a hop that
    does not continue the chain. *)
Definition maximal_chain_at (hops : list Hop.t) (i : nat) (chain : list Hop.t)
  : Prop :=
  exists k : nat,
    (1 <= k <= MAX_CHAIN)%nat
    /\ length chain = k
    /\ chain = take k (drop i hops)
    /\ chained chain
    /\ (k = MAX_CHAIN
        \/ (i + k)%nat = length hops
        \/ exists a b, hops !! (i + k - 1)%nat = Some a
                       /\ hops !! (i + k)%nat = Some b
                       /\ Hop.tokenIn b <> Hop.tokenOut a).

(** *** Path codec (section 4.2): [token(20) || (fee(3) || token(20))*] *)

Fixpoint encode_path_tail (fees toks : list (list byte)) : list byte :=
  match fees, toks with
  | f :: fees', t :: toks' => f ++ t ++ encode_path_tail fees' toks'
  | _, _ => []
  end.

Definition encode_path (toks fees : list (list byte)) : list byte :=
  match toks with
  | [] => []
  | t :: toks' => t ++ encode_path_tail fees toks'
  end.

(** The address string [a] is the checksummed form of the 20 bytes [t]:
    it is what [to_checksum_address] gives for them, and it spells the
    same bytes (only the case of the letters differs). *)
Definition checksummed_form (t : list byte) (a : string) : Prop :=
  checksum_of_bytes t = Some a
  /\ str_lower a = String.append "0x" (bytes_hex t).

(** *** Formatter (section 4.9) *)

Definition digit_value (c : ascii) : Z := Z.of_nat (nat_of_ascii c) - 48.

(** The number a string of decimal digits denotes. *)
Definition digits_value (ds : list ascii) : Z :=
  fold_left (fun acc c => 10 * acc + digit_value c) ds 0.

(** The text before the first point, and the text after it if there is
    a point. *)
Fixpoint split_at_point (cs : list ascii) : list ascii * option (list ascii) :=
  match cs with
  | [] => ([], None)
  | c :: r =>
      if Ascii.eqb c "." then ([], Some r)
      else let '(ip, fp) := split_at_point r in (c :: ip, fp)
  end.

Definition nonempty_digits (ds : list ascii) : bool :=
  negb (Nat.eqb (length ds) 0) && forallb is_digit ds.

(** Reading a decimal string back: [digits] or [digits.digits], as the
    pair [(m, k)] that stands for [m / 10^k]. *)
Definition parse_decimal (s : string) : option (Z * Z) :=
  match split_at_point (list_ascii_of_string s) with
  | (ip, None) =>
      if nonempty_digits ip then Some (digits_value ip, 0) else None
  | (ip, Some fp) =>
      if nonempty_digits ip && nonempty_digits fp
      then Some (digits_value (ip ++ fp), Z.of_nat (length fp))
      else None
  end.

(** Trailing zeros and a trailing decimal point are trimmed: a string with
    a point ends in neither ["0"] nor ["."]. *)
Definition trimmed (s : string) : Prop :=
  str_contains "." s = true ->
  forall cs c, list_ascii_of_string s = cs ++ [c] -> c <> "0"%char /\ c <> "."%char.

(** *** Input validation (section 6): [0x[0-9a-fA-F]{64}] *)

Definition matches_tx_hash_pattern (s : string) : bool :=
  match list_ascii_of_string s with
  | "0"%char :: "x"%char :: body =>
      Nat.eqb (length body) 64
      && forallb (fun c => match hexval c with Some _ => true | None => false end) body
  | _ => false
  end.

(** A string of the right length and prefix that is not hexadecimal. *)
Definition malformed_hash : string :=
  "0xzzzzzzzzzzzzzzzzzzzzzzzzzzzzzzzzzzzzzzzzzzzzzzzzzzzzzzzzzzzzzzzz".

(** *** Intents (section 4.4) *)

(** The decoded arguments of [exactInputSingle] and [exactOutputSingle]:
    one struct whose fields 0, 1 and 3 are the two tokens and the
    recipient. *)
Definition single_swap_args (args : list abi_value) (tin tout rcp : string)
  : Prop :=
  exists fields,
    args !! 0%nat = Some (VTuple fields)
    /\ fields !! 0%nat = Some (VStr tin)
    /\ fields !! 1%nat = Some (VStr tout)
    /\ fields !! 3%nat = Some (VStr rcp).

(** The decoded arguments of [exactInput] and [exactOutput]: one struct
    whose field 0 is the packed path and field 1 the recipient. *)
Definition path_swap_args (args : list abi_value) (path : list byte)
    (rcp : string) : Prop :=
  exists fields,
    args !! 0%nat = Some (VTuple fields)
    /\ fields !! 0%nat = Some (VBytes path)
    /\ fields !! 1%nat = Some (VStr rcp).

(** The command byte of a Universal Router V3 swap. *)
Definition is_v3_swap_command (cmd : byte) : Prop :=
  Z.land (Z.of_N (Byte.to_N cmd)) 31 = UR_V3_SWAP_EXACT_IN
  \/ Z.land (Z.of_N (Byte.to_N cmd)) 31 = UR_V3_SWAP_EXACT_OUT.

(** *** Selection (section 4.7) and the error kinds (section 7) *)

Definition is_unselectable (e : exception) : bool :=
  match e with
  | RuntimeError m =>
      String.eqb m "Could not select a swap sequence from Swap events."
  | _ => false
  end.

(** A result, and a computation, that is not the [Unselectable] error. *)
Definition selectable_result {A} (r : exn A) : Prop :=
  match r with
  | Ok _ => True
  | Raise e => is_unselectable e = false
  end.

Definition selectable {A} (m : M A) : Prop :=
  forall rpc, selectable_result (fst (m rpc)).

(** A selection that holds a non-empty best sequence. *)
Definition selected (st : selection) : Prop :=
  exists sc first rest it, st = (sc, Some (first :: rest), it).

(** *** Log extraction (section 4.5) *)

(** The two valid sign configurations of the deltas of a [Swap] event. *)
Definition token0_in (a0 a1 : Z) : Prop := 0 < a0 /\ a1 < 0.
Definition token1_in (a0 a1 : Z) : Prop := 0 < a1 /\ a0 < 0.

(** The decoded deltas [(a0, a1)] of a log that is a pool [Swap] event
    with decodable data. *)
Definition log_deltas (lg : Log) : option (Z * Z) :=
  match default [] (log_topics lg), log_data lg with
  | topic0 :: _, Some data_hex =>
      if String.eqb (str_lower (s0x topic0)) SWAP_TOPIC0_NOX_LOWER then
        match fromhex (s0x data_hex) with
        | Ok data =>
            match abi_decode swap_data_types data with
            | Some [v0; v1; _; _; _] =>
                match value_int v0, value_int v1 with
                | Ok a0, Ok a1 => Some (a0, a1)
                | _, _ => None
                end
            | _ => None
            end
        | Raise _ => None
        end
      else None
  | _, _ => None
  end.

(** A log gives a hop when it is a [Swap] event whose deltas have one of
    the two valid sign configurations. *)
Definition yields_hop (lg : Log) : bool :=
  match log_deltas lg with
  | Some (a0, a1) => ((0 <? a0) && (a1 <? 0)) || ((0 <? a1) && (a0 <? 0))
  | None => false
  end.

(** [t] is the token that the pool gives for the call [sig] ([token0()]
    or [token1()]): the address in the last 20 bytes of an answer of at
    least 32 bytes, which the endpoint gave to the call at some request,
    or which the memo table of the client held when the run started from
    [rpc0]. *)
Definition eth_call_answer (rpc0 : RPC) (to data block r : string) : Prop :=
  _eth_call_cache rpc0 !! (to, data, block) = Some r
  \/ exists i, node_eth_call i to data block = Reply r.

Definition pool_answer (rpc0 : RPC) (pool sig t : string) : Prop :=
  exists r b,
    eth_call_answer rpc0 pool (abi_call_selector sig) "latest" r
    /\ fromhex (s0x r) = Ok b /\ (32 <= length b)%nat
    /\ checksum_of_bytes (bytes_suffix 20 b) = Some t.

(** Every entry of the memo table of [rpc] is an answer in that sense. *)
Definition memo_sound (rpc0 rpc : RPC) : Prop :=
  forall to data block r,
    _eth_call_cache rpc !! (to, data, block) = Some r ->
    eth_call_answer rpc0 to data block r.

(** The hop [h] has the direction of the deltas [(a0, a1)] between the
    tokens [t0] and [t1] of its pool: token0 in and token1 out when
    [a0 > 0] and [a1 < 0], token1 in and token0 out when [a1 > 0] and
    [a0 < 0]; exactly one of the two holds, and the amounts are the delta
    paid in and the negated delta paid out. *)
Definition hop_of_swap (h : Hop.t) (t0 t1 : string) (a0 a1 : Z) : Prop :=
  (token0_in a0 a1 /\ ~ token1_in a0 a1
   /\ Hop.tokenIn h = t0 /\ Hop.tokenOut h = t1
   /\ Hop.amountInInt h = a0 /\ Hop.amountOutInt h = - a1)
  \/ (token1_in a0 a1 /\ ~ token0_in a0 a1
      /\ Hop.tokenIn h = t1 /\ Hop.tokenOut h = t0
      /\ Hop.amountInInt h = a1 /\ Hop.amountOutInt h = - a0).

(** The hop [h] is the hop of the log [lg] in a run that started from
    [rpc0]: a [Swap] log with deltas [(a0, a1)], the pool is the address
    of the log, the index is the index of the log, and the direction is
    the one of the deltas between the two tokens of the pool. *)
Definition hop_of_log (rpc0 : RPC) (lg : Log) (h : Hop.t) : Prop :=
  exists a0 a1 t0 t1,
    log_deltas lg = Some (a0, a1)
    /\ (log_address lg ≫= to_checksum_address) = Some (Hop.pool h)
    /\ h2i (default "0x0" (log_logIndex lg)) = Ok (Hop.logIndex h)
    /\ pool_answer rpc0 (Hop.pool h) "token0()" t0
    /\ pool_answer rpc0 (Hop.pool h) "token1()" t1
    /\ hop_of_swap h t0 t1 a0 a1.

(* ---------------------------------------------------------------- *)
(** ** A reference ABI decoder and a canned endpoint

    They instantiate the variables of the section in the closed
    examples at the end.  The decoder covers the two argument layouts
    the examples use, after the Solidity ABI: five static words for the
    data of a [Swap] event, and the tuple with one dynamic [bytes] of a
    Universal Router V3 swap. *)
(* ---------------------------------------------------------------- *)

(** A 32-byte big-endian word (two's complement for a negative [n]). *)
Definition abi_word (n : Z) : list byte :=
  map (fun i => byte_of_Z ((n mod 2 ^ 256) / 256 ^ (31 - Z.of_nat i) mod 256))
      (seq 0 32).

Definition word_at (data : list byte) (i : nat) : option Z :=
  let w := take 32 (drop (32 * i) data) in
  if Nat.eqb (length w) 32 then Some (int_from_bytes_big w) else None.

Definition as_int256 (n : Z) : Z := if n <? 2 ^ 255 then n else n - 2 ^ 256.

Definition abi_decode_ref (types : list string) (data : list byte)
  : option (list abi_value) :=
  match word_at data 0, word_at data 1, word_at data 2, word_at data 3,
        word_at data 4 with
  | Some w0, Some w1, Some w2, Some w3, Some w4 =>
      if bool_decide (types = swap_data_types) then
        let tick := as_int256 w4 in
        if (w2 <? 2 ^ 160) && (w3 <? 2 ^ 128) && (- 2 ^ 23 <=? tick) && (tick <? 2 ^ 23)
        then Some [VInt (as_int256 w0); VInt (as_int256 w1); VInt w2; VInt w3; VInt tick]
        else None
      else if bool_decide (types = ur_swap_types) then
        let tail := drop (Z.to_nat w3) data in
        let len := int_from_bytes_big (take 32 tail) in
        let payload := take (Z.to_nat len) (drop 32 tail) in
        if (w0 <? 2 ^ 160) && (w4 <? 2) && (32 <=? Z.of_nat (length tail))
           && (Z.of_nat (length payload) =? len)
        then Some [VStr (String.append "0x"
                           (bytes_hex (bytes_suffix 20 (take 32 data))));
                   VInt w1; VInt w2; VBytes payload; VBool (w4 =? 1)]
        else None
      else None
  | _, _, _, _, _ => None
  end.

Definition USDC : string := "0xA0b86991c6218b36c1d19D4a2e9Eb0cE3606eB48".
Definition sample_pool : string := "0x88e6a0c2ddd26feeb64f039a2c41296fcb3f5640".
Definition sample_sender : string := "0x83e9e6d3ddb272b147ecc3f1d50323c4464d0708".

(** A [Swap] event: 59.401751 USDC paid in, 0.0175 WETH paid out. *)
Definition sample_swap_log : Log :=
  mkLog (Some sample_pool)
    (Some ["0xc42079f94a6350d7e6235f29174924f928cc2ac818eb64fed8004e115fbcca67"])
    (Some (String.append "0x"
             (bytes_hex (abi_word 59401751 ++ abi_word (-17500000000000000)
                         ++ abi_word 1392419026681877396792347 ++ abi_word 23456789012345678901
                         ++ abi_word (-200123)))))
    (Some "0x5").

(** A [Swap] event whose deltas are 0 and -5: no valid direction. *)
Definition sample_bad_log : Log :=
  mkLog (Some sample_pool)
    (Some ["0xc42079f94a6350d7e6235f29174924f928cc2ac818eb64fed8004e115fbcca67"])
    (Some (String.append "0x"
             (bytes_hex (abi_word 0 ++ abi_word (-5) ++ abi_word 1 ++ abi_word 1
                         ++ abi_word 0))))
    (Some "0x6").

Definition node_get_tx_ref (i : Z) (tx_hash : string) : rpc_reply (option Tx) :=
  Reply (Some (mkTx (Some sample_sender) (Some "0x") (Some "0x0"))).

Definition node_get_receipt_ref (i : Z) (tx_hash : string)
  : rpc_reply (option Receipt) :=
  Reply (Some (mkReceipt (Some "0x1") (Some [sample_bad_log; sample_swap_log]))).

Definition node_eth_call_ref (i : Z) (to data block : string) : rpc_reply string :=
  let word n := Reply (String.append "0x" (bytes_hex (abi_word n))) in
  if String.eqb data (abi_call_selector "token0()") then
    word 0xa0b86991c6218b36c1d19d4a2e9eb0ce3606eb48
  else if String.eqb data (abi_call_selector "token1()") then
    word 0xc02aaa39b223fe8d0a0e5c4f27ead9083c756cc2
  else if String.eqb data (abi_call_selector "decimals()") then
    if String.eqb to USDC then word 6 else word 18
  else ReplyError "execution reverted".

(** The argument blob of a Universal Router V3 swap: recipient
    [address(1)], amount 1000, limit 0, the given path, payer is user. *)
Definition ur_swap_blob (path : list byte) : list byte :=
  abi_word 1 ++ abi_word 1000 ++ abi_word 0 ++ abi_word 160 ++ abi_word 1
  ++ abi_word (Z.of_nat (length path)) ++ path
  ++ repeat x00 ((32 - length path mod 32) mod 32).

Definition bytes20 (n : Z) : list byte := bytes_suffix 20 (abi_word n).

(** USDC, fee 500, WETH. *)
Definition sample_path : list byte :=
  encode_path [bytes20 0xa0b86991c6218b36c1d19d4a2e9eb0ce3606eb48;
               bytes20 0xc02aaa39b223fe8d0a0e5c4f27ead9083c756cc2]
              [[x00; x01; xf4]].

Definition USDT : string := "0xdAC17F958D2ee523a2206206994597C13D831ec7".
Definition sample_recipient : string := "0x83E9E6d3Ddb272B147ecC3F1D50323C4464d0708".
Definition sample_payee : string := "0x3d102d44296AC2279fDa87BC2E3a7Dd043E60ac0".

(** The hop of [sample_swap_log], and a hop that continues it. *)
Definition sample_hop : Hop.t :=
  Hop.mk 5 "0x88e6A0c2dDD26FEEb64F039a2c41296FcB3f5640" USDC WETH9
    59401751 17500000000000000.

Definition sample_hop2 : Hop.t :=
  Hop.mk 7 "0x11b815efB8f581194ae79006d24E0d814B7697F6" WETH9 USDT
    17500000000000000 59300000.

Definition sample_intent : Intent.t :=
  Intent.mk 0 "exactInput" (Some USDC) (Some USDT) (Some sample_recipient)
    (Some [USDC; WETH9; USDT]).



Definition sample_rpc : RPC := RPC_init "http://localhost:8545".






(** Two payout helpers that name another payee. *)
Definition sample_payout_calls : list DecodedCall :=
  [mkCall "sweepToken" [VStr USDT; VInt 0; VStr sample_payee] "0x";
   mkCall "unwrapWETH9" [VInt 0; VStr sample_payee] "0x"].

(* ---------------------------------------------------------------- *)
(** ** Notions for the further properties *)
(* ---------------------------------------------------------------- *)











(* ---------------------------------------------------------------- *)
(** ** Properties *)
(* ---------------------------------------------------------------- *)

(** *** Lists *)

Lemma last_lookup_default {A} (l : list A) (d : A) :
  l <> [] -> l !! (length l - 1)%nat = Some (List.last l d).
Proof.
  induction l as [|a l IH]; [congruence|]. intros _.
  destruct l as [|b l]; [reflexivity|].
  change (List.last (a :: b :: l) d) with (List.last (b :: l) d).
  rewrite <- IH by congruence. simpl. now rewrite Nat.sub_0_r.
Qed.

Lemma last_snoc {A} (l : list A) (x d : A) : List.last (l ++ [x]) d = x.
Proof. apply last_last. Qed.

(** *** Candidate enumeration *)

Lemma chained_singleton h : chained [h].
Proof. intros [|i] a b Ha Hb; simpl in *; discriminate. Qed.

Lemma chained_snoc c h d :
  c <> [] -> chained c -> Hop.tokenIn h = Hop.tokenOut (List.last c d) ->
  chained (c ++ [h]).
Proof.
  intros Hne Hc Hlast i a b Ha Hb.
  destruct (Nat.lt_ge_cases (S i) (length c)) as [Hlt|Hge].
  - rewrite lookup_app_l in Ha by lia. rewrite lookup_app_l in Hb by lia.
    eapply Hc; eauto.
  - assert (Hi : (i < length c)%nat).
    { apply lookup_lt_Some in Hb. rewrite length_app in Hb. simpl in Hb. lia. }
    rewrite lookup_app_l in Ha by lia.
    rewrite lookup_app_r in Hb by lia.
    replace (S i - length c)%nat with 0%nat in Hb by lia. simpl in Hb.
    injection Hb as <-.
    replace i with (length c - 1)%nat in Ha by lia.
    rewrite (last_lookup_default c d Hne) in Ha. injection Ha as <-.
    exact Hlast.
Qed.

Lemma chained_take c n : chained c -> chained (take n c).
Proof.
  intros Hc i a b Ha Hb.
  apply lookup_take_Some in Ha as [Ha _]. apply lookup_take_Some in Hb as [Hb _].
  eapply Hc; eauto.
Qed.

(** What the [while] loop computes: the chain grows by a prefix of the
    hops that follow, stays chained, and stops for one of three reasons. *)
Lemma extend_chain_spec max_len h0 rest :
  forall chain, chain <> [] ->
  exists m : nat,
    extend_chain max_len h0 chain rest = chain ++ take m rest
    /\ (m <= length rest)%nat
    /\ (chained chain -> chained (chain ++ take m rest))
    /\ (Z.of_nat (length chain + m) <= Z.max (Z.of_nat (length chain)) max_len)
    /\ (max_len <= Z.of_nat (length chain + m)
        \/ m = length rest
        \/ exists b, rest !! m = Some b
                     /\ Hop.tokenIn b
                        <> Hop.tokenOut (List.last (chain ++ take m rest) h0)).
Proof.
  induction rest as [|hj rest IH]; intros chain Hne.
  - exists 0%nat. simpl. rewrite app_nil_r. repeat split; auto; lia.
  - simpl.
    destruct (Z.of_nat (length chain) <? max_len) eqn:Hlen; simpl.
    + destruct (String.eqb (Hop.tokenOut (List.last chain h0)) (Hop.tokenIn hj))
        eqn:Htok.
      * apply String.eqb_eq in Htok. apply Z.ltb_lt in Hlen.
        destruct (IH (chain ++ [hj])) as (m & Heq & Hm & Hch & Hbound & Hstop).
        { destruct chain; discriminate. }
        exists (S m). simpl.
        rewrite <- app_assoc in Heq, Hch, Hstop. simpl in Heq, Hch, Hstop.
        rewrite length_app in Hbound, Hstop. simpl in Hbound, Hstop.
        split; [exact Heq|]. split; [lia|]. split.
        { intros Hc. apply Hch. apply chained_snoc with (d := h0); auto. }
        split; [lia|].
        destruct Hstop as [H|[H|H]]; [left; lia|right; left; lia|right; right; exact H].
      * exists 0%nat. simpl. rewrite app_nil_r.
        split; [reflexivity|]. split; [lia|]. split; [auto|]. split; [lia|].
        right; right. exists hj. split; [reflexivity|].
        intros Heq. rewrite Heq, String.eqb_refl in Htok. discriminate.
    + apply Z.ltb_ge in Hlen. exists 0%nat. simpl. rewrite app_nil_r.
      split; [reflexivity|]. split; [lia|]. split; [auto|]. split; [lia|].
      left. lia.
Qed.

(** The candidates are the non-empty prefixes of the chains that start at
    each index. *)
Lemma build_candidates_elem hops max_len cand :
  cand ∈ build_candidates hops max_len <->
  exists i hi L,
    hops !! i = Some hi
    /\ (1 <= L <= length (extend_chain max_len hi [hi] (drop (S i) hops)))%nat
    /\ cand = take L (extend_chain max_len hi [hi] (drop (S i) hops)).
Proof.
  unfold build_candidates. rewrite list_elem_of_In, in_flat_map. split.
  - intros (i & Hi & Hin). destruct (hops !! i) as [hi|] eqn:Hhi; [|destruct Hin].
    apply in_map_iff in Hin as (L & <- & HL). apply in_seq in HL.
    exists i, hi, L. split; [exact Hhi|]. split; [lia|reflexivity].
  - intros (i & hi & L & Hhi & HL & ->). exists i. split.
    + apply in_seq. apply lookup_lt_Some in Hhi. lia.
    + rewrite Hhi. apply in_map_iff. exists L. split; [reflexivity|].
      apply in_seq. lia.
Qed.

Lemma candidates_are_chains (hops cand : list Hop.t) :
  cand ∈ build_candidates hops 8 ->
  cand <> [] /\ (length cand <= MAX_CHAIN)%nat /\ chained cand.
Proof.
  intros Hin. apply build_candidates_elem in Hin as (i & hi & L & Hhi & HL & ->).
  destruct (extend_chain_spec 8 hi (drop (S i) hops) [hi])
    as (m & Heq & Hm & Hch & Hbound & _); [discriminate|].
  rewrite Heq in *. simpl in *.
  split; [|split].
  - destruct L; [lia|]. simpl. discriminate.
  - rewrite length_take. unfold MAX_CHAIN. simpl. rewrite length_take. lia.
  - apply chained_take. apply Hch. apply chained_singleton.
Qed.

(** C3: every candidate that [build_candidates] produces with the bound of
    the decoder is non-empty, at most [MAX_CHAIN = 8] hops long, and
    chained: each hop after the first takes in the token the hop before it
    put out. *)
Theorem build_candidates_chain_invariant (hops cand : list Hop.t) :
  cand ∈ build_candidates hops 8 ->
  cand <> [] /\ (length cand <= MAX_CHAIN)%nat /\ chained cand.
Proof. apply candidates_are_chains. Qed.

(** C4: candidate enumeration is complete.  At every index [i] of the hop
    list there is a maximal chain (greedy extension while the next hop
    takes in what the last hop put out and the length is below 8), and
    every prefix of it, of length 1 up to the length of the chain, is
    among the candidates. *)
Theorem build_candidates_complete (hops : list Hop.t) (i : nat) :
  (i < length hops)%nat ->
  exists chain,
    maximal_chain_at hops i chain
    /\ forall L, (1 <= L <= length chain)%nat ->
                 take L chain ∈ build_candidates hops 8.
Proof.
  intros Hi. destruct (lookup_lt_is_Some_2 hops i Hi) as [hi Hhi].
  exists (extend_chain 8 hi [hi] (drop (S i) hops)). split.
  - destruct (extend_chain_spec 8 hi (drop (S i) hops) [hi])
      as (m & Heq & Hm & Hch & Hbound & Hstop); [discriminate|].
    rewrite Heq in *. change (length [hi] + m)%nat with (S m) in Hbound, Hstop.
    assert (Hk : (1 <= S m <= 8)%nat) by (clear - Hbound; simpl in Hbound; lia).
    assert (Hlen : length ([hi] ++ take m (drop (S i) hops)) = S m).
    { simpl. rewrite length_take. lia. }
    assert (Hpre : [hi] ++ take m (drop (S i) hops) = take (S m) (drop i hops)).
    { rewrite (drop_S hops hi i Hhi). reflexivity. }
    rewrite length_drop in Hm.
    exists (S m). unfold MAX_CHAIN. split; [exact Hk|]. split; [exact Hlen|].
    split; [exact Hpre|]. split; [apply Hch, chained_singleton|].
    destruct Hstop as [H|[H|(b & Hb & Hne)]].
    + left. lia.
    + right; left. rewrite length_drop in H. lia.
    + right; right. exists (List.last ([hi] ++ take m (drop (S i) hops)) hi), b.
      split; [|split; [|exact Hne]].
      * rewrite <- (last_lookup_default _ hi) by discriminate.
        rewrite Hlen, Hpre. rewrite lookup_take_lt by lia.
        rewrite lookup_drop. f_equal. lia.
      * rewrite lookup_drop in Hb. rewrite <- Hb. f_equal. lia.
  - intros L HL. apply build_candidates_elem. exists i, hi, L. auto.
Qed.

(** *** Scoring *)

Lemma truthy_and_equal (o : option string) (s : string) :
  o <> Some "" ->
  truthy_str o && bool_decide (Some s = o) = bool_decide (o = Some s).
Proof.
  intros Hne. destruct o as [t|]; simpl.
  - destruct (String.eqb_spec t ""); [subst; congruence|]. simpl.
    apply bool_decide_ext. split; congruence.
  - reflexivity.
Qed.

Lemma last_map_default {A B} (f : A -> B) (l : list A) (d : A) (e : B) :
  l <> [] -> List.last (map f l) e = f (List.last l d).
Proof.
  induction l as [|a l IH]; [congruence|]. intros _.
  destruct l as [|b l]; [reflexivity|].
  change (List.last (map f (a :: b :: l)) e) with (List.last (map f (b :: l)) e).
  rewrite IH by congruence. reflexivity.
Qed.

Lemma seq_tokens_last (first : Hop.t) (rest : list Hop.t) :
  List.last (seq_tokens (first :: rest)) "" =
  Hop.tokenOut (List.last (first :: rest) first).
Proof.
  unfold seq_tokens.
  change (List.last (Hop.tokenIn first :: map Hop.tokenOut (first :: rest)) "")
    with (List.last (map Hop.tokenOut (first :: rest)) "").
  apply last_map_default. discriminate.
Qed.

(** C1: the score of a candidate against an intent is the pair the design
    document describes: (0, amountIn) for a missing or fully empty intent;
    otherwise 10 for the declared input token, 10 for the declared output
    token, and for a declared path of two tokens or more 100 for the exact
    path, else 80 for the reversed path, and 15 when the hop count is the
    length of the path minus one, else -5; the second component is the
    [amountInInt] of the first hop. *)
Theorem score_matches_spec (first : Hop.t) (rest : list Hop.t)
    (intent : option Intent.t) :
  declared_tokens_nonempty intent ->
  score (first :: rest) intent =
  score_spec first (List.last (first :: rest) first) (first :: rest) intent.
Proof.
  intros Hwf. destruct intent as [it|]; [|reflexivity].
  destruct Hwf as [Hin Hout].
  unfold score, score_spec, intent_fully_empty, path_bonus, str_list_eqb.
  rewrite seq_tokens_last.
  change (List.hd "" (seq_tokens (first :: rest))) with (Hop.tokenIn first).
  rewrite (truthy_and_equal _ _ Hin), (truthy_and_equal _ _ Hout).
  destruct it as [ix ct tin tout rc pt].
  cbn [Intent.tokenIn Intent.tokenOut Intent.pathTokens] in *.
  destruct tin as [tin|], tout as [tout|], pt as [[|p0 pt]|];
    cbn [truthy_list andb negb];
    repeat case_bool_decide; try congruence; cbn [andb negb];
    repeat match goal with
           | |- context [Z.leb ?a ?b] => destruct (Z.leb_spec a b)
           | |- context [Z.eqb ?a ?b] => destruct (Z.eqb_spec a b)
           end;
    cbn [andb negb]; simpl length in *;
    try reflexivity; try (f_equal; lia); try lia.
Qed.

(** *** Checksummed addresses *)

Lemma to_checksum_address_prefix (v a : string) :
  to_checksum_address v = Some a -> exists t, a = String "0" (String "x" t).
Proof.
  unfold to_checksum_address. intros H.
  destruct (_ && _) in H; [|discriminate]. injection H as <-. eauto.
Qed.

Lemma to_checksum_address_truthy (v a : string) :
  to_checksum_address v = Some a -> truthy_str (Some a) = true.
Proof.
  intros H. apply to_checksum_address_prefix in H as [t ->]. reflexivity.
Qed.

Lemma hexdigit_lower_hex (b : byte) :
  is_lower_hex (hexdigit (Byte.to_N b / 16)) = true
  /\ is_lower_hex (hexdigit (Byte.to_N b mod 16)) = true
  /\ ascii_lower (hexdigit (Byte.to_N b / 16)) = hexdigit (Byte.to_N b / 16)
  /\ ascii_lower (hexdigit (Byte.to_N b mod 16)) = hexdigit (Byte.to_N b mod 16).
Proof. destruct b; vm_compute; auto. Qed.

Lemma hex_chars_length (bs : list byte) :
  length (hex_chars bs) = (2 * length bs)%nat.
Proof. induction bs as [|b bs IH]; simpl; [reflexivity|]. rewrite IH. lia. Qed.

Lemma hex_chars_lower_hex (bs : list byte) :
  forallb is_lower_hex (hex_chars bs) = true.
Proof.
  induction bs as [|b bs IH]; simpl; [reflexivity|].
  destruct (hexdigit_lower_hex b) as (-> & -> & _). exact IH.
Qed.

Lemma hex_chars_lower (bs : list byte) :
  map ascii_lower (hex_chars bs) = hex_chars bs.
Proof.
  induction bs as [|b bs IH]; simpl; [reflexivity|].
  destruct (hexdigit_lower_hex b) as (_ & _ & -> & ->). now rewrite IH.
Qed.

Lemma bytes_hex_chars (bs : list byte) :
  list_ascii_of_string (bytes_hex bs) = hex_chars bs.
Proof. apply list_ascii_of_string_of_list_ascii. Qed.

Lemma startswith_0x (t : string) :
  startswith (String "0" (String "x" t)) "0x" = true.
Proof.
  unfold startswith. cbn [String.prefix].
  destruct (ascii_dec "0" "0"); [|congruence].
  destruct (ascii_dec "x" "x"); [|congruence].
  destruct t; reflexivity.
Qed.

(** A slice of 20 bytes always has a checksummed form. *)
Lemma checksum_of_bytes_20 (b : list byte) :
  length b = 20%nat ->
  checksum_of_bytes b =
  Some (String "0" (String "x"
          (string_of_list_ascii
             (checksum_chars (keccak (bytes_hex b)) (hex_chars b))))).
Proof.
  intros Hlen. unfold checksum_of_bytes, to_checksum_address.
  assert (Hlow : str_lower (String.append "0x" (bytes_hex b))
                 = String "0" (String "x" (bytes_hex b))).
  { change (String.append "0x" (bytes_hex b))
      with (String "0" (String "x" (bytes_hex b))).
    unfold str_lower, bytes_hex. cbn [list_ascii_of_string map string_of_list_ascii].
    rewrite list_ascii_of_string_of_list_ascii, hex_chars_lower. reflexivity. }
  rewrite Hlow.
  assert (Hdrop : str_drop 2 (String "0" (String "x" (bytes_hex b))) = bytes_hex b).
  { unfold str_drop. simpl. apply string_of_list_ascii_of_string. }
  rewrite startswith_0x. rewrite Hdrop. rewrite !bytes_hex_chars.
  rewrite hex_chars_length, Hlen, hex_chars_lower_hex. reflexivity.
Qed.

Lemma lower_of_upper (c : ascii) :
  is_lower_hex c = true ->
  ascii_lower (ascii_upper c) = c /\ ascii_lower c = c.
Proof.
  destruct c as [[] [] [] [] [] [] [] []]; vm_compute; intros H;
    first [discriminate H | auto].
Qed.

Lemma lower_imap_case (cs : list ascii) :
  forall f : nat -> ascii -> ascii,
    (forall i c, f i c = c \/ f i c = ascii_upper c) ->
    forallb is_lower_hex cs = true ->
    map ascii_lower (imap f cs) = cs.
Proof.
  induction cs as [|c cs IH]; intros f Hf Hall; [reflexivity|].
  simpl in Hall. apply andb_true_iff in Hall as [Hc Hall].
  cbn [imap map]. rewrite IH; [|intros i c'; apply Hf|exact Hall].
  f_equal. destruct (lower_of_upper c Hc) as [Hup Hlow].
  destruct (Hf 0%nat c) as [-> | ->]; assumption.
Qed.

Lemma checksum_of_bytes_form (t : list byte) :
  length t = 20%nat -> exists a, checksummed_form t a.
Proof.
  intros Hlen. eexists. split; [apply (checksum_of_bytes_20 t Hlen)|].
  change (String.append "0x" (bytes_hex t))
    with (String "0" (String "x" (bytes_hex t))).
  unfold str_lower. cbn [list_ascii_of_string map string_of_list_ascii].
  rewrite list_ascii_of_string_of_list_ascii.
  unfold checksum_chars. rewrite lower_imap_case.
  - reflexivity.
  - intros i c. destruct (_ <? _)%N; auto.
  - apply hex_chars_lower_hex.
Qed.

Lemma ascii_lower_idem (c : ascii) : ascii_lower (ascii_lower c) = ascii_lower c.
Proof. destruct c as [[] [] [] [] [] [] [] []]; vm_compute; reflexivity. Qed.

Lemma str_lower_idem (s : string) : str_lower (str_lower s) = str_lower s.
Proof.
  unfold str_lower. rewrite list_ascii_of_string_of_list_ascii, map_map.
  f_equal. apply map_ext. intros c. apply ascii_lower_idem.
Qed.

Lemma to_checksum_address_body (body : string) (v : string) :
  str_lower v = String "0" (String "x" body) ->
  to_checksum_address v =
  if (Nat.eqb (length (list_ascii_of_string body)) 40
      && forallb is_lower_hex (list_ascii_of_string body))%bool
  then Some (String "0" (String "x"
               (string_of_list_ascii
                  (checksum_chars (keccak body) (list_ascii_of_string body)))))
  else None.
Proof.
  intros Hv. unfold to_checksum_address. rewrite Hv, startswith_0x.
  assert (Hd : str_drop 2 (String "0" (String "x" body)) = body).
  { unfold str_drop. cbn [list_ascii_of_string skipn].
    apply string_of_list_ascii_of_string. }
  rewrite Hd. reflexivity.
Qed.

Lemma to_checksum_address_normal (v a : string) :
  to_checksum_address v = Some a ->
  to_checksum_address a = Some a
  /\ to_checksum_address (str_lower v) = Some a
  /\ exists body, str_lower a = String "0" (String "x" body)
                  /\ (str_lower v = body \/ str_lower v = str_lower a).
Proof.
  intros H.
  assert (Hlow : to_checksum_address (str_lower v) = Some a).
  { unfold to_checksum_address in *. rewrite str_lower_idem. exact H. }
  split; [|split; [exact Hlow|]].
  - unfold to_checksum_address in H.
    set (body := if startswith (str_lower v) "0x"
                 then str_drop 2 (str_lower v) else str_lower v) in *.
    destruct (Nat.eqb (length (list_ascii_of_string body)) 40
              && forallb is_lower_hex (list_ascii_of_string body))%bool eqn:Hc;
      [|discriminate].
    injection H as <-.
    assert (Hl : str_lower
                   (String "0" (String "x"
                      (string_of_list_ascii
                         (checksum_chars (keccak body) (list_ascii_of_string body)))))
                 = String "0" (String "x" body)).
    { unfold str_lower. cbn [list_ascii_of_string map string_of_list_ascii].
      rewrite list_ascii_of_string_of_list_ascii. unfold checksum_chars.
      rewrite lower_imap_case.
      - rewrite string_of_list_ascii_of_string. reflexivity.
      - intros i c. destruct (_ <? _)%N; auto.
      - apply andb_true_iff in Hc as [_ Hc]. exact Hc. }
    rewrite (to_checksum_address_body body _ Hl), Hc. reflexivity.
  - unfold to_checksum_address in H.
    set (body := if startswith (str_lower v) "0x"
                 then str_drop 2 (str_lower v) else str_lower v) in *.
    destruct (Nat.eqb (length (list_ascii_of_string body)) 40
              && forallb is_lower_hex (list_ascii_of_string body))%bool eqn:Hc;
      [|discriminate].
    injection H as <-. exists body.
    assert (Hl : str_lower
                   (String "0" (String "x"
                      (string_of_list_ascii
                         (checksum_chars (keccak body) (list_ascii_of_string body)))))
                 = String "0" (String "x" body)).
    { unfold str_lower. cbn [list_ascii_of_string map string_of_list_ascii].
      rewrite list_ascii_of_string_of_list_ascii. unfold checksum_chars.
      rewrite lower_imap_case.
      - rewrite string_of_list_ascii_of_string. reflexivity.
      - intros i c. destruct (_ <? _)%N; auto.
      - apply andb_true_iff in Hc as [_ Hc]. exact Hc. }
    split; [exact Hl|]. rewrite Hl. subst body.
    destruct (startswith (str_lower v) "0x") eqn:Hsw; [right|left; reflexivity].
    unfold startswith in Hsw.
    destruct (str_lower v) as [|c0 [|c1 t]]; try discriminate.
    cbn [String.prefix] in Hsw.
    destruct (ascii_dec _ c0) as [<-|]; [|discriminate].
    destruct (ascii_dec _ c1) as [<-|]; [|discriminate].
    do 2 f_equal. symmetry. exact (string_of_list_ascii_of_string t).
Qed.

(** *** Path codec *)

Lemma parse_path_loop_total (fuel : nat) :
  forall rest toks, exists pt, parse_path_loop fuel rest toks = Ok pt.
Proof.
  induction fuel as [|fuel IH]; intros rest toks; simpl; [eauto|].
  destruct rest as [|r0 rest]; [eauto|].
  destruct (_ <? 3)%nat; [eauto|].
  destruct (length (drop 3 (r0 :: rest)) <? 20)%nat eqn:Hlen; [eauto|].
  apply Nat.ltb_ge in Hlen.
  rewrite checksum_of_bytes_20 by (rewrite length_take; lia).
  simpl. apply IH.
Qed.

Lemma parse_path_total (p : list byte) : exists pt, parse_path p = Ok pt.
Proof.
  unfold parse_path. destruct (length p <? 20)%nat eqn:Hlen; [eauto|].
  apply Nat.ltb_ge in Hlen.
  rewrite checksum_of_bytes_20 by (rewrite length_take; lia).
  simpl. apply parse_path_loop_total.
Qed.

Lemma parse_path_loop_encode (toks : list (list byte)) :
  forall fees fuel acc,
    Forall (fun t => length t = 20%nat) toks ->
    Forall (fun f => length f = 3%nat) fees ->
    length fees = length toks ->
    (length toks <= fuel)%nat ->
    exists addrs,
      parse_path_loop fuel (encode_path_tail fees toks) acc = Ok (acc ++ addrs)
      /\ Forall2 checksummed_form toks addrs.
Proof.
  induction toks as [|t toks IH]; intros fees fuel acc Ht Hf Hlen Hfuel.
  - exists []. rewrite app_nil_r. split; [|constructor].
    destruct fees; [|discriminate]. destruct fuel; reflexivity.
  - destruct fees as [|f fees]; [discriminate|].
    destruct fuel as [|fuel]; [simpl in Hfuel; lia|].
    inversion Ht as [|? ? Ht0 Hts]; subst. inversion Hf as [|? ? Hf0 Hfs]; subst.
    simpl in Hlen, Hfuel.
    destruct (checksum_of_bytes_form t Ht0) as (a & Hcs & Hlow).
    destruct (IH fees fuel (acc ++ [a]))
      as (addrs & Hloop & Hall); auto; try lia.
    exists (a :: addrs).
    split.
    + cbn [encode_path_tail parse_path_loop].
      destruct (f ++ t ++ encode_path_tail fees toks) as [|x xs] eqn:Hrest.
      { apply (f_equal length) in Hrest. rewrite !length_app in Hrest.
        simpl in Hrest. lia. }
      rewrite <- Hrest.
      assert (H3 : (length (f ++ t ++ encode_path_tail fees toks) <? 3)%nat = false).
      { apply Nat.ltb_ge. rewrite !length_app. lia. }
      rewrite H3.
      assert (Hd3 : drop 3 (f ++ t ++ encode_path_tail fees toks)
                    = t ++ encode_path_tail fees toks).
      { rewrite <- Hf0. apply drop_app_length. }
      rewrite Hd3.
      assert (H20 : (length (t ++ encode_path_tail fees toks) <? 20)%nat = false).
      { apply Nat.ltb_ge. rewrite length_app. lia. }
      rewrite H20.
      assert (Ht20 : take 20 (t ++ encode_path_tail fees toks) = t).
      { rewrite <- Ht0. apply take_app_length. }
      assert (Hd20 : drop 20 (t ++ encode_path_tail fees toks)
                     = encode_path_tail fees toks).
      { rewrite <- Ht0. apply drop_app_length. }
      rewrite Ht20, Hd20, Hcs.
      cbn [option_get exn_bind].
      rewrite Hloop. rewrite <- app_assoc. reflexivity.
    + constructor; [split; assumption|exact Hall].
Qed.

Lemma encode_path_tail_length (toks : list (list byte)) :
  forall fees,
    Forall (fun t => length t = 20%nat) toks ->
    Forall (fun f => length f = 3%nat) fees ->
    length fees = length toks ->
    length (encode_path_tail fees toks) = (23 * length toks)%nat.
Proof.
  induction toks as [|t toks IH]; intros [|f fees] Ht Hf Hlen;
    try discriminate; [reflexivity|].
  inversion Ht; subst. inversion Hf; subst. simpl in Hlen.
  cbn [encode_path_tail]. rewrite !length_app, IH by (auto; lia).
  simpl length. lia.
Qed.

(** C7: the path codec round-trips.  For addresses of 20 bytes each and
    fees of 3 bytes each, one fee between two addresses, parsing
    [token || (fee || token)*] yields the checksummed form of each
    address, in order; the fees are dropped. *)
Theorem parse_path_encode_path (toks fees : list (list byte)) :
  Forall (fun t => length t = 20%nat) toks ->
  Forall (fun f => length f = 3%nat) fees ->
  length fees = (length toks - 1)%nat ->
  exists addrs,
    parse_path (encode_path toks fees) = Ok addrs
    /\ Forall2 checksummed_form toks addrs.
Proof.
  intros Ht Hf Hlen. destruct toks as [|t toks].
  - exists []. split; [reflexivity|constructor].
  - inversion Ht as [|? ? Ht0 Hts]; subst. simpl in Hlen.
    rewrite Nat.sub_0_r in Hlen.
    unfold parse_path, encode_path.
    assert (H20 : (length (t ++ encode_path_tail fees toks) <? 20)%nat = false).
    { apply Nat.ltb_ge. rewrite length_app. lia. }
    rewrite H20.
    assert (Ht20 : take 20 (t ++ encode_path_tail fees toks) = t).
    { rewrite <- Ht0. apply take_app_length. }
    assert (Hd20 : drop 20 (t ++ encode_path_tail fees toks)
                   = encode_path_tail fees toks).
    { rewrite <- Ht0. apply drop_app_length. }
    destruct (checksum_of_bytes_form t Ht0) as (a & Hcs & Hlow).
    rewrite Ht20, Hd20, Hcs. cbn [option_get exn_bind].
    destruct (parse_path_loop_encode toks fees
                (length (t ++ encode_path_tail fees toks)) [a])
      as (addrs & Hloop & Hall); auto.
    { rewrite length_app, encode_path_tail_length by auto. lia. }
    rewrite Hloop. eexists. split; [reflexivity|].
    constructor; [split; assumption|exact Hall].
Qed.

(** *** Recipient inference *)

(** C5: a declared recipient that is a checksummed address outside the
    router set is returned as it is, whatever the calls are (payout
    helpers included) and whatever the output token is. *)
Theorem infer_recipient_non_router (calls : list DecodedCall)
    (declared : string) (token_out : option string) :
  to_checksum_address declared = Some declared ->
  declared ∉ ROUTERS ->
  infer_recipient calls (Some declared) token_out = Ok (Some declared).
Proof.
  intros Hcs Hnot. unfold infer_recipient.
  rewrite (to_checksum_address_truthy _ _ Hcs). cbn [negb mbind option_bind].
  rewrite Hcs. cbn [option_get exn_bind].
  rewrite bool_decide_eq_false_2 by exact Hnot. reflexivity.
Qed.

(** *** Intents *)

Lemma is_single_not_multi (name : string) :
  is_multi name = true -> is_single name = false.
Proof.
  unfold is_multi, is_single. intros H. apply orb_true_iff in H.
  destruct H as [H|H]; apply String.eqb_eq in H; subst; reflexivity.
Qed.

Lemma value_checksum_str (s a : string) :
  to_checksum_address s = Some a -> value_checksum (VStr s) = Ok a.
Proof. intros H. unfold value_checksum. rewrite H. reflexivity. Qed.

Lemma ur_swap_intent_decoded (exact_out : bool) (blob path : list byte)
    (rcp rcp' : string) (a b payer : abi_value) (idx : Z) :
  abi_decode ur_swap_types blob = Some [VStr rcp; a; b; VBytes path; payer] ->
  to_checksum_address rcp = Some rcp' ->
  exists pt,
    parse_path path = Ok pt
    /\ (pt = [] -> ur_swap_intent exact_out (VBytes blob) idx = Ok None)
    /\ (pt <> [] ->
        exists it, ur_swap_intent exact_out (VBytes blob) idx = Ok (Some it)
                   /\ Intent.idx it = idx
                   /\ Intent.recipient it = Some rcp'
                   /\ Intent.pathTokens it = Some pt).
Proof.
  intros Hdec Hcs. destruct (parse_path_total path) as [pt Hpt].
  exists pt. split; [exact Hpt|].
  unfold ur_swap_intent. cbn [value_bytes exn_bind]. rewrite Hdec.
  cbn [option_get exn_bind value_bytes]. rewrite Hpt. cbn [exn_bind].
  split.
  - intros ->. reflexivity.
  - intros Hne. destruct pt as [|t0 pt]; [congruence|].
    rewrite (value_checksum_str _ _ Hcs). cbn [exn_bind].
    destruct exact_out; eexists; (split; [reflexivity|]); auto.
Qed.

(** The two paths that declare a swap.  Each of the four router swap
    functions yields an intent whenever its arguments have the registered
    shape, also when the path gives no token: the intent then has no
    token and keeps the recipient, and it joins the list of intents.  A
    Universal Router V3 swap sub-command whose argument blob decodes
    yields an intent exactly when its path gives at least one token: with
    an empty token list the sub-command yields no intent. *)
Theorem swap_declarations_and_intents :
  (forall fname fargs raw idx rest acc tin tout rcp tin' tout' rcp',
      is_single fname = true ->
      single_swap_args fargs tin tout rcp ->
      to_checksum_address tin = Some tin' ->
      to_checksum_address tout = Some tout' ->
      to_checksum_address rcp = Some rcp' ->
      decode_intent fname fargs idx
      = Ok (Intent.mk idx fname (Some tin') (Some tout') (Some rcp') None)
      /\ collect_intents (mkCall fname fargs raw :: rest) idx acc
         = collect_intents rest (idx + 1)
             (acc ++ [Intent.mk idx fname (Some tin') (Some tout') (Some rcp') None]))
  /\ (forall fname fargs raw idx rest acc path rcp rcp',
        is_multi fname = true ->
        path_swap_args fargs path rcp ->
        to_checksum_address rcp = Some rcp' ->
        exists it pt,
          decode_intent fname fargs idx = Ok it
          /\ collect_intents (mkCall fname fargs raw :: rest) idx acc
             = collect_intents rest (idx + 1) (acc ++ [it])
          /\ parse_path path = Ok pt
          /\ Intent.recipient it = Some rcp'
          /\ Intent.pathTokens it = Some pt
          /\ (pt = [] -> Intent.tokenIn it = None /\ Intent.tokenOut it = None))
  /\ (forall cmd blob base path rcp rcp' a b payer,
        is_v3_swap_command cmd ->
        abi_decode ur_swap_types blob = Some [VStr rcp; a; b; VBytes path; payer] ->
        to_checksum_address rcp = Some rcp' ->
        exists pt,
          parse_path path = Ok pt
          /\ (pt = [] ->
              decode_universal_router_intents [cmd] [VBytes blob] base = [])
          /\ (pt <> [] ->
              exists it,
                decode_universal_router_intents [cmd] [VBytes blob] base = [it]
                /\ Intent.recipient it = Some rcp'
                /\ Intent.pathTokens it = Some pt)).
Proof.
  split; [|split].
  - intros fname fargs raw idx rest acc tin tout rcp tin' tout' rcp'
      Hname (fields & Ha & H0 & H1 & H3) Htin Htout Hrcp.
    assert (Hdec : decode_intent fname fargs idx
                   = Ok (Intent.mk idx fname (Some tin') (Some tout') (Some rcp') None)).
    { unfold decode_intent. rewrite Hname, Ha.
      cbn [option_get exn_bind value_index]. rewrite H0, H1, H3.
      cbn [exn_bind]. rewrite (value_checksum_str _ _ Htin). cbn [exn_bind].
      rewrite (value_checksum_str _ _ Htout). cbn [exn_bind].
      rewrite (value_checksum_str _ _ Hrcp). reflexivity. }
    split; [exact Hdec|].
    cbn [collect_intents name args]. rewrite Hname. cbn [orb].
    rewrite Hdec. reflexivity.
  - intros fname fargs raw idx rest acc path rcp rcp'
      Hname (fields & Ha & H0 & H1) Hrcp.
    destruct (parse_path_total path) as [pt Hpt].
    assert (Hdec : exists it,
               decode_intent fname fargs idx = Ok it
               /\ Intent.recipient it = Some rcp'
               /\ Intent.pathTokens it = Some pt
               /\ (pt = [] -> Intent.tokenIn it = None /\ Intent.tokenOut it = None)).
    { unfold decode_intent. rewrite (is_single_not_multi _ Hname), Hname, Ha.
      cbn [option_get exn_bind value_index]. rewrite H0.
      cbn [exn_bind value_bytes]. rewrite Hpt. cbn [exn_bind]. rewrite H1.
      cbn [exn_bind].
      destruct pt as [|t0 pt]; [|destruct (String.eqb fname "exactInput")];
        eexists;
        (split; [rewrite (value_checksum_str _ _ Hrcp); reflexivity|]);
        cbn; repeat split; congruence. }
    destruct Hdec as (it & Hdec & Hr & Hp & He).
    exists it, pt. split; [exact Hdec|]. split; [|auto].
    cbn [collect_intents name args]. rewrite Hname, orb_true_r.
    rewrite Hdec. reflexivity.
  - intros cmd blob base path rcp rcp' a b payer Hcmd Hdec Hrcp.
    destruct (ur_swap_intent_decoded false blob path rcp rcp' a b payer
                (base + Z.of_nat 0) Hdec Hrcp) as (pt & Hpt & Hin0 & Hin1).
    destruct (ur_swap_intent_decoded true blob path rcp rcp' a b payer
                (base + Z.of_nat 0) Hdec Hrcp) as (pt' & Hpt' & Hout0 & Hout1).
    rewrite Hpt in Hpt'. injection Hpt' as <-.
    exists pt. split; [exact Hpt|].
    unfold decode_universal_router_intents. cbn [ur_loop lookup list_lookup].
    split.
    + intros Hnil. rewrite (Hin0 Hnil), (Hout0 Hnil).
      destruct (_ =? UR_V3_SWAP_EXACT_IN); [reflexivity|].
      destruct (_ =? UR_V3_SWAP_EXACT_OUT); reflexivity.
    + intros Hne. destruct (Hin1 Hne) as (it1 & -> & _ & Hr1 & Hp1).
      destruct (Hout1 Hne) as (it2 & -> & _ & Hr2 & Hp2).
      destruct Hcmd as [Hc|Hc]; rewrite Hc.
      * exists it1. cbn. auto.
      * exists it2. cbn. auto.
Qed.

(** *** Input validation *)

(** C9, the code at a failing input: a 66-character argument that starts
    with [0x] and has no hexadecimal digit after it does not match the
    pattern, and [main] does not reject it; the run goes on into
    [decode_uniswap_v3_swap] with it. *)
Theorem main_accepts_malformed_hash :
  matches_tx_hash_pattern malformed_hash = false
  /\ main ["uniswap_v3_decoder.py"; malformed_hash] (Some "http://localhost:8545")
     = match fst (decode_uniswap_v3_swap malformed_hash false
                    (RPC_init "http://localhost:8545")) with
       | Ok out => Printed out
       | Raise e => Exit 2 [String.append "Error: " (exception_message e)]
       end.
Proof.
  split; [reflexivity|].
  assert (Hs : str_strip malformed_hash = malformed_hash) by reflexivity.
  assert (Hu : str_strip (default "" (Some "http://localhost:8545"))
               = "http://localhost:8545") by reflexivity.
  assert (Hc : negb (startswith malformed_hash "0x"
                     && (str_len malformed_hash =? 66)) = false)
    by (vm_compute; reflexivity).
  assert (Ha : bool_decide ("--all" ∈ @nil string) = false)
    by (vm_compute; reflexivity).
  unfold main. cbv beta iota zeta. rewrite Hs, Hu, Hc, Ha. reflexivity.
Qed.

(** *** Selection *)

Lemma build_candidates_nonempty (hops : list Hop.t) :
  hops <> [] -> build_candidates hops 8 <> [].
Proof.
  destruct hops as [|h hops]; [congruence|]. intros _ Hnil.
  assert (Hin : take 1 (extend_chain 8 h [h] (drop 1 (h :: hops)))
                ∈ build_candidates (h :: hops) 8).
  { apply build_candidates_elem. exists 0%nat, h, 1%nat.
    split; [reflexivity|]. split; [|reflexivity].
    destruct (extend_chain_spec 8 h (drop 1 (h :: hops)) [h])
      as (m & -> & _); [discriminate|]. simpl. lia. }
  rewrite Hnil in Hin. inversion Hin.
Qed.

Lemma build_candidates_all_nonempty (hops : list Hop.t) :
  Forall (fun c => c <> []) (build_candidates hops 8).
Proof.
  apply Forall_forall. intros c Hc. apply (candidates_are_chains hops c Hc).
Qed.

(** The score of a non-empty sequence is at least -5. *)
Lemma score_lower_bound (seq : list Hop.t) (intent : option Intent.t) :
  seq <> [] -> -5 <= fst (score seq intent).
Proof.
  destruct seq as [|h0 seq]; [congruence|]. intros _. unfold score.
  destruct intent as [it|]; [|simpl; lia].
  repeat match goal with
         | |- context [if ?b then _ else _] => destruct b
         | |- context [match Intent.pathTokens it with _ => _ end] =>
             destruct (Intent.pathTokens it)
         end;
    cbn [fst]; lia.
Qed.

Lemma score_beats_sentinel (seq : list Hop.t) (intent : option Intent.t) :
  seq <> [] -> pair_gt (score seq intent) (fst (fst selection_init)) = true.
Proof.
  intros Hne. pose proof (score_lower_bound seq intent Hne) as Hlow.
  unfold pair_gt, selection_init. cbn [fst snd].
  apply orb_true_iff. left. apply Z.ltb_lt. lia.
Qed.

Lemma select_step_selected it st seq :
  seq <> [] -> selected st -> selected (select_step it st seq).
Proof.
  intros Hne Hst. unfold select_step. destruct (pair_gt _ _); [|exact Hst].
  destruct seq as [|first rest]; [congruence|]. repeat eexists.
Qed.

Lemma select_step_init it seq :
  seq <> [] -> selected (select_step it selection_init seq).
Proof.
  intros Hne. unfold select_step. rewrite (score_beats_sentinel seq it Hne).
  destruct seq as [|first rest]; [congruence|]. repeat eexists.
Qed.

Lemma fold_select_selected it cands :
  forall st, Forall (fun c => c <> []) cands -> selected st ->
             selected (fold_left (select_step it) cands st).
Proof.
  induction cands as [|c cands IH]; intros st Hall Hst; [exact Hst|].
  inversion Hall; subst. simpl. apply IH; [assumption|].
  apply select_step_selected; assumption.
Qed.

Lemma fold_select_init it cands :
  cands <> [] -> Forall (fun c => c <> []) cands ->
  selected (fold_left (select_step it) cands selection_init).
Proof.
  destruct cands as [|c cands]; [congruence|]. intros _ Hall.
  inversion Hall; subst. simpl. apply fold_select_selected; [assumption|].
  apply select_step_init. assumption.
Qed.

Lemma select_best_selected cands intents :
  cands <> [] -> Forall (fun c => c <> []) cands ->
  selected (select_best cands intents).
Proof.
  intros Hne Hall. unfold select_best.
  destruct intents as [|it intents]; [apply fold_select_init; assumption|].
  cbn [fold_left].
  generalize (fold_select_init (Some it) cands Hne Hall).
  generalize (fold_left (select_step (Some it)) cands selection_init).
  induction intents as [|it' intents IH]; intros st Hst; [exact Hst|].
  cbn [fold_left]. apply IH. apply fold_select_selected; assumption.
Qed.

(** *** No other step raises the selection error *)

Lemma selectable_result_bind {A B} (m : exn A) (k : A -> exn B) :
  selectable_result m -> (forall a, selectable_result (k a)) ->
  selectable_result (exn_bind m k).
Proof. destruct m; simpl; auto. Qed.

Lemma selectable_result_option_get {A} (o : option A) (e : exception) :
  is_unselectable e = false -> selectable_result (option_get o e).
Proof. destruct o; simpl; auto. Qed.

Lemma selectable_ret {A} (a : A) : selectable (ret a).
Proof. intros rpc. exact I. Qed.

Lemma selectable_raise {A} (e : exception) :
  is_unselectable e = false -> selectable (@raise A e).
Proof. intros H rpc. exact H. Qed.

Lemma selectable_lift {A} (r : exn A) : selectable_result r -> selectable (lift r).
Proof. intros H rpc. exact H. Qed.

Lemma selectable_bind {A B} (m : M A) (k : A -> M B) :
  selectable m -> (forall a, selectable (k a)) -> selectable (bind m k).
Proof.
  intros Hm Hk rpc. unfold bind. specialize (Hm rpc).
  destruct (m rpc) as [[a|e] rpc']; simpl in *; [apply Hk|exact Hm].
Qed.

Lemma selectable_try_except {A} (m h : M A) :
  selectable h -> selectable (try_except m h).
Proof.
  intros Hh rpc. unfold try_except.
  destruct (m rpc) as [[a|e] rpc']; simpl; [exact I|apply Hh].
Qed.

Create HintDb selectable.

(** One step through the syntax of a computation. *)
Ltac selectable_step :=
  match goal with
  | |- selectable_result (Ok _) => exact I
  | |- selectable_result (Raise _) => reflexivity
  | |- selectable_result (exn_bind _ _) =>
      apply selectable_result_bind; [|intros ?]
  | |- selectable_result (option_get _ _) =>
      apply selectable_result_option_get; reflexivity
  | |- selectable (ret _) => apply selectable_ret
  | |- selectable (raise _) => apply selectable_raise; reflexivity
  | |- selectable (lift _) => apply selectable_lift
  | |- selectable (bind _ _) => apply selectable_bind; [|intros ?]
  | |- selectable (try_except _ _) => apply selectable_try_except
  | |- selectable_result (match ?x with _ => _ end) => destruct x
  | |- selectable (match ?x with _ => _ end) => destruct x
  | |- selectable_result (if ?b then _ else _) => destruct b
  | |- selectable (if ?b then _ else _) => destruct b
  | |- _ => solve [auto with selectable]
  end.

Ltac selectable_auto := repeat selectable_step.

Lemma selectable_h2i h : selectable_result (h2i h).
Proof. unfold h2i. selectable_auto. Qed.

Lemma selectable_fromhex s : selectable_result (fromhex s).
Proof. unfold fromhex. selectable_auto. Qed.

Lemma selectable_chk a : selectable_result (chk a).
Proof. unfold chk. selectable_auto. Qed.

Lemma selectable_fix d : selectable_result (PyDecimal.fix_ d).
Proof. unfold PyDecimal.fix_. selectable_auto. Qed.

Lemma selectable_to_hr x dec : selectable_result (to_hr x dec).
Proof.
  unfold to_hr, PyDecimal.pow10, PyDecimal.truediv.
  pose proof selectable_fix. selectable_auto.
Qed.

Lemma selectable_parse_path p : selectable_result (parse_path p).
Proof. destruct (parse_path_total p) as [pt ->]. exact I. Qed.

Lemma selectable_value_index v i : selectable_result (value_index v i).
Proof. unfold value_index. selectable_auto. Qed.

Lemma selectable_value_checksum v : selectable_result (value_checksum v).
Proof. unfold value_checksum. selectable_auto. Qed.

Lemma selectable_value_int v : selectable_result (value_int v).
Proof. unfold value_int. selectable_auto. Qed.

Lemma selectable_value_bytes v : selectable_result (value_bytes v).
Proof. unfold value_bytes. selectable_auto. Qed.

Hint Resolve selectable_h2i selectable_fromhex selectable_chk selectable_to_hr
  selectable_parse_path selectable_value_index selectable_value_checksum
  selectable_value_int selectable_value_bytes : selectable.

Lemma selectable_decode_input input_hex : selectable_result (decode_input input_hex).
Proof. unfold decode_input. selectable_auto. Qed.

Lemma selectable_decode_intent fname fargs idx :
  selectable_result (decode_intent fname fargs idx).
Proof. unfold decode_intent. selectable_auto. Qed.

Hint Resolve selectable_decode_input selectable_decode_intent : selectable.

Lemma selectable_fold_left {A B} (f : exn A -> B -> exn A) (l : list B) :
  (forall acc b, selectable_result acc -> selectable_result (f acc b)) ->
  forall acc, selectable_result acc -> selectable_result (fold_left f l acc).
Proof.
  intros Hf. induction l as [|b l IH]; intros acc Hacc; simpl; auto.
Qed.

Lemma selectable_walk_calls_fuel fuel :
  forall input_hex, selectable_result (walk_calls_fuel fuel input_hex).
Proof.
  induction fuel as [|fuel IH]; intros input_hex; simpl; [exact I|].
  selectable_auto.
  apply selectable_fold_left; [|exact I].
  intros acc b Hacc. selectable_auto.
Qed.

Lemma selectable_collect_intents calls :
  forall idx intents, selectable_result (collect_intents calls idx intents).
Proof.
  induction calls as [|c calls IH]; intros idx intents; simpl; [exact I|].
  selectable_auto; apply IH.
Qed.

Lemma selectable_infer_recipient calls swap_recipient token_out :
  selectable_result (infer_recipient calls swap_recipient token_out).
Proof.
  unfold infer_recipient.
  assert (Hfold : forall t r,
             selectable_result
               (fold_left (fun acc c => let? final := acc in infer_step t final c)
                  calls (Ok r))).
  { intros t r. apply selectable_fold_left; [|exact I].
    intros acc c Hacc. unfold infer_step. selectable_auto. }
  selectable_auto; apply Hfold.
Qed.

Lemma selectable_rpc_call {A} (post : Z -> rpc_reply A) : selectable (rpc_call post).
Proof. intros rpc. unfold rpc_call. destruct (post (_id rpc)); reflexivity. Qed.

Lemma selectable_eth_call to data block : selectable (eth_call to data block).
Proof.
  unfold eth_call. selectable_auto. intros rpc.
  destruct (_eth_call_cache rpc !! _); [exact I|].
  pose proof (selectable_rpc_call (fun i => node_eth_call i a data block) rpc) as H.
  destruct (rpc_call _ rpc) as [[res|e] rpc']; simpl in *; auto.
Qed.

Hint Resolve selectable_eth_call : selectable.

Lemma selectable_call_addr contract sig : selectable (call_addr contract sig).
Proof. unfold call_addr. selectable_auto. Qed.

Lemma selectable_call_u8 contract sig : selectable (call_u8 contract sig).
Proof. unfold call_u8. selectable_auto. Qed.

Hint Resolve selectable_call_addr selectable_call_u8 : selectable.

Lemma selectable_extract_hops_loop logs :
  forall out cache, selectable (extract_hops_loop logs out cache).
Proof.
  induction logs as [|lg logs IH]; intros out cache; simpl;
    [apply selectable_ret|].
  selectable_auto; apply IH.
Qed.

Lemma selectable_extract_hops logs : selectable (extract_hops logs).
Proof.
  unfold extract_hops. apply selectable_bind;
    [apply selectable_extract_hops_loop|intros; apply selectable_ret].
Qed.

Lemma selectable_decimals_of cache tok : selectable (decimals_of cache tok).
Proof. unfold decimals_of. selectable_auto. Qed.

Hint Resolve selectable_decimals_of : selectable.

Lemma selectable_all_swap_candidates cands :
  forall cache acc, selectable (all_swap_candidates cands cache acc).
Proof.
  induction cands as [|c cands IH]; intros cache acc; simpl;
    [apply selectable_ret|].
  selectable_auto; apply IH.
Qed.

Lemma selectable_decode tx_hash return_all :
  selectable (decode_uniswap_v3_swap tx_hash return_all).
Proof.
  unfold decode_uniswap_v3_swap, get_tx, get_receipt.
  pose proof @selectable_rpc_call. pose proof selectable_walk_calls_fuel.
  pose proof selectable_collect_intents. pose proof selectable_extract_hops.
  pose proof selectable_infer_recipient. pose proof selectable_all_swap_candidates.
  unfold walk_calls.
  repeat first
    [ match goal with
      | |- context [select_best (build_candidates (?h :: ?t) 8) ?intents] =>
          let Hsel := fresh "Hsel" in
          destruct (select_best_selected (build_candidates (h :: t) 8) intents)
            as (? & ? & ? & ? & Hsel);
          [ apply build_candidates_nonempty; discriminate
          | apply build_candidates_all_nonempty
          | rewrite Hsel; cbv beta iota zeta ]
      end
    | selectable_step ].
Qed.

(** C10: once the log extractor has found a hop, selection succeeds.  A
    non-empty hop list has at least one candidate; a non-empty candidate
    scores above the sentinel [(-10000, -1)] against any intent or none;
    the selection ends with a non-empty best sequence; and no run of
    [decode_uniswap_v3_swap] ends in the error
    "Could not select a swap sequence from Swap events.". *)
Theorem selection_always_succeeds (hops : list Hop.t) (intents : list Intent.t) :
  hops <> [] ->
  build_candidates hops 8 <> []
  /\ (forall seq intent,
        seq <> [] -> pair_gt (score seq intent) (-10000, -1) = true)
  /\ (exists sc first rest it,
        select_best (build_candidates hops 8) intents
        = (sc, Some (first :: rest), it))
  /\ (forall tx_hash return_all rpc,
        fst (decode_uniswap_v3_swap tx_hash return_all rpc) <> Raise unselectable).
Proof.
  intros Hne. split; [|split; [|split]].
  - apply build_candidates_nonempty, Hne.
  - intros seq intent Hseq. apply (score_beats_sentinel seq intent Hseq).
  - apply select_best_selected;
      [apply build_candidates_nonempty, Hne|apply build_candidates_all_nonempty].
  - intros tx_hash return_all rpc Heq.
    pose proof (selectable_decode tx_hash return_all rpc) as Hsel.
    rewrite Heq in Hsel. discriminate Hsel.
Qed.

(** *** Log extraction *)

Lemma bind_Ok {A B} (m : M A) (k : A -> M B) rpc b rpc' :
  bind m k rpc = (Ok b, rpc') ->
  exists a rpc1, m rpc = (Ok a, rpc1) /\ k a rpc1 = (Ok b, rpc').
Proof.
  unfold bind. destruct (m rpc) as [[a|e] rpc1]; [eauto|discriminate].
Qed.

Lemma lift_Ok {A} (r : exn A) rpc a rpc' :
  lift r rpc = (Ok a, rpc') -> r = Ok a /\ rpc' = rpc.
Proof. unfold lift. intros H. injection H as -> ->. auto. Qed.

Lemma option_get_Ok {A} (o : option A) e a : option_get o e = Ok a -> o = Some a.
Proof. destruct o; simpl; congruence. Qed.

Lemma swap_direction_Some t0 t1 a0 a1 tin tout ain aout :
  swap_direction t0 t1 a0 a1 = Some (tin, tout, ain, aout) ->
  ((0 <? a0) && (a1 <? 0)) || ((0 <? a1) && (a0 <? 0)) = true.
Proof.
  unfold swap_direction.
  destruct ((0 <? a0) && (a1 <? 0)); [reflexivity|].
  destruct ((0 <? a1) && (a0 <? 0)); [reflexivity|discriminate].
Qed.

Lemma swap_direction_None t0 t1 a0 a1 :
  swap_direction t0 t1 a0 a1 = None ->
  ((0 <? a0) && (a1 <? 0)) || ((0 <? a1) && (a0 <? 0)) = false.
Proof.
  unfold swap_direction.
  destruct ((0 <? a0) && (a1 <? 0)); [discriminate|].
  destruct ((0 <? a1) && (a0 <? 0)); [discriminate|reflexivity].
Qed.

Lemma yields_hop_no_deltas lg : log_deltas lg = None -> yields_hop lg = false.
Proof. unfold yields_hop. intros ->. reflexivity. Qed.

Lemma insert_by_logIndex_perm h l : insert_by_logIndex h l ≡ₚ h :: l.
Proof.
  induction l as [|x l IH]; simpl; [reflexivity|].
  destruct (Hop.logIndex h <=? Hop.logIndex x); [reflexivity|].
  rewrite IH. apply perm_swap.
Qed.

Lemma sort_by_logIndex_perm l : sort_by_logIndex l ≡ₚ l.
Proof.
  induction l as [|h l IH]; simpl; [reflexivity|].
  rewrite insert_by_logIndex_perm. now rewrite IH.
Qed.

Lemma swap_direction_swap t0 t1 a0 a1 tin tout ain aout :
  swap_direction t0 t1 a0 a1 = Some (tin, tout, ain, aout) ->
  forall h, Hop.tokenIn h = tin -> Hop.tokenOut h = tout ->
            Hop.amountInInt h = ain -> Hop.amountOutInt h = aout ->
            hop_of_swap h t0 t1 a0 a1.
Proof.
  unfold swap_direction, hop_of_swap, token0_in, token1_in.
  destruct ((0 <? a0) && (a1 <? 0)) eqn:H0.
  - intros H. injection H as <- <- <- <-.
    apply andb_true_iff in H0 as [Ha Hb]. apply Z.ltb_lt in Ha, Hb.
    intros h Hti Hto Hin Hout. left. repeat split; auto; lia.
  - destruct ((0 <? a1) && (a0 <? 0)) eqn:H1; [|discriminate].
    intros H. injection H as <- <- <- <-.
    apply andb_true_iff in H1 as [Ha Hb]. apply Z.ltb_lt in Ha, Hb.
    intros h Hti Hto Hin Hout. right. repeat split; auto; lia.
Qed.

Lemma hop_of_swap_positive h t0 t1 a0 a1 :
  hop_of_swap h t0 t1 a0 a1 -> 0 < Hop.amountInInt h /\ 0 < Hop.amountOutInt h.
Proof.
  unfold hop_of_swap, token0_in, token1_in.
  intros [(H & _ & _ & _ & -> & ->)|(H & _ & _ & _ & -> & ->)]; lia.
Qed.

Lemma memo_sound_refl (rpc : RPC) : memo_sound rpc rpc.
Proof. intros to data block r H. left. exact H. Qed.

Lemma eth_call_sound (rpc0 : RPC) (to to' data block r : string) (rpc rpc' : RPC) :
  memo_sound rpc0 rpc -> to_checksum_address to = Some to' ->
  eth_call to data block rpc = (Ok r, rpc') ->
  eth_call_answer rpc0 to' data block r /\ memo_sound rpc0 rpc'.
Proof.
  intros Hinv Hto H. unfold eth_call, bind, lift in H. rewrite Hto in H.
  cbn [option_get] in H.
  destruct (_eth_call_cache rpc !! (to', data, block)) as [hit|] eqn:Hc.
  - injection H as <- <-. split; [apply Hinv, Hc|exact Hinv].
  - unfold rpc_call in H.
    destruct (node_eth_call (_id rpc) to' data block) as [res| |] eqn:Hn;
      try discriminate.
    injection H as <- <-. split; [right; eauto|].
    intros to2 d2 b2 v Hl. cbn [_eth_call_cache] in Hl.
    destruct (decide ((to', data, block) = (to2, d2, b2))) as [Heq|Hne].
    + rewrite Heq, lookup_insert_eq in Hl. injection Hl as <-.
      injection Heq as <- <- <-. right. eauto.
    + rewrite lookup_insert_ne in Hl by exact Hne. apply Hinv, Hl.
Qed.

Lemma call_addr_sound (rpc0 : RPC) (pool sig t : string) (rpc rpc' : RPC) :
  memo_sound rpc0 rpc -> to_checksum_address pool = Some pool ->
  call_addr pool sig rpc = (Ok t, rpc') ->
  pool_answer rpc0 pool sig t /\ memo_sound rpc0 rpc'.
Proof.
  intros Hinv Hpool H. unfold call_addr in H.
  apply bind_Ok in H as (r & rpc1 & Heth & H).
  apply bind_Ok in H as (b & rpc2 & Hb & H). apply lift_Ok in Hb as [Hb ->].
  destruct (length b <? 32)%nat eqn:Hlen; [discriminate|].
  apply Nat.ltb_ge in Hlen. apply lift_Ok in H as [H ->].
  apply option_get_Ok in H.
  destruct (eth_call_sound rpc0 _ _ _ _ _ _ _ Hinv Hpool Heth) as [Hans Hinv'].
  split; [|exact Hinv']. exists r, b. auto.
Qed.

(** The loop appends the hop of each log with a valid configuration, in
    the order of the logs, and nothing for the other logs. *)
Lemma extract_hops_loop_directed (rpc0 : RPC) (logs : list Log) :
  forall out cache rpc res rpc',
    memo_sound rpc0 rpc ->
    (forall pool t0 t1, cache !! pool = Some (t0, t1) ->
       pool_answer rpc0 pool "token0()" t0 /\ pool_answer rpc0 pool "token1()" t1) ->
    extract_hops_loop logs out cache rpc = (Ok res, rpc') ->
    exists new,
      res = out ++ new
      /\ Forall2 (hop_of_log rpc0) (List.filter yields_hop logs) new.
Proof.
  induction logs as [|lg logs IH]; intros out cache rpc res rpc' Hinv Hcache H.
  - injection H as <- _. exists []. rewrite app_nil_r. split; [reflexivity|constructor].
  - cbn [extract_hops_loop] in H. cbn [List.filter].
    destruct (default [] (log_topics lg)) as [|topic0 topics] eqn:Htop.
    { rewrite yields_hop_no_deltas; [eauto|]. unfold log_deltas. now rewrite Htop. }
    destruct (String.eqb (str_lower (s0x topic0)) SWAP_TOPIC0_NOX_LOWER) eqn:Htopic;
      cbn [negb] in H.
    2:{ rewrite yields_hop_no_deltas; [eauto|]. unfold log_deltas.
        rewrite Htop, Htopic. now destruct (log_data lg). }
    apply bind_Ok in H as (address & rpc1 & H1 & H). apply lift_Ok in H1 as [Haddr ->].
    apply option_get_Ok in Haddr.
    apply bind_Ok in H as (pool & rpc1 & H1 & H). apply lift_Ok in H1 as [Hpool ->].
    apply option_get_Ok in Hpool.
    apply bind_Ok in H as (logi & rpc1 & H1 & H). apply lift_Ok in H1 as [Hlogi ->].
    apply bind_Ok in H as (data_hex & rpc1 & H1 & H). apply lift_Ok in H1 as [Hdata ->].
    apply option_get_Ok in Hdata.
    apply bind_Ok in H as (data & rpc1 & H1 & H). apply lift_Ok in H1 as [Hfrom ->].
    assert (Hld : log_deltas lg =
                  match abi_decode swap_data_types data with
                  | Some [v0; v1; _; _; _] =>
                      match value_int v0, value_int v1 with
                      | Ok a0, Ok a1 => Some (a0, a1)
                      | _, _ => None
                      end
                  | _ => None
                  end).
    { unfold log_deltas. rewrite Htop, Hdata, Htopic, Hfrom. reflexivity. }
    destruct (abi_decode swap_data_types data)
      as [[|v0 [|v1 [|v2 [|v3 [|v4 [|v5 vs]]]]]]|] eqn:Hdec;
      try (rewrite (yields_hop_no_deltas lg Hld); eauto).
    apply bind_Ok in H as (a0 & rpc1 & H1 & H). apply lift_Ok in H1 as [Ha0 ->].
    apply bind_Ok in H as (a1 & rpc1 & H1 & H). apply lift_Ok in H1 as [Ha1 ->].
    rewrite Ha0, Ha1 in Hld.
    apply bind_Ok in H as ([[t0 t1] cache'] & rpc2 & Htok & H).
    assert (Hpp : to_checksum_address pool = Some pool)
      by (apply (to_checksum_address_normal address pool Hpool)).
    assert (Hstep : pool_answer rpc0 pool "token0()" t0
                    /\ pool_answer rpc0 pool "token1()" t1
                    /\ memo_sound rpc0 rpc2
                    /\ (forall p2 u0 u1, cache' !! p2 = Some (u0, u1) ->
                          pool_answer rpc0 p2 "token0()" u0
                          /\ pool_answer rpc0 p2 "token1()" u1)).
    { destruct (cache !! pool) as [[c0 c1]|] eqn:Hpc.
      - injection Htok as <- <- <- <-.
        destruct (Hcache pool c0 c1 Hpc) as [Hc0 Hc1]. auto.
      - apply bind_Ok in Htok as (u0 & rpcA & Hu0 & Htok).
        apply bind_Ok in Htok as (u1 & rpcB & Hu1 & Htok).
        injection Htok as <- <- <- <-.
        destruct (call_addr_sound rpc0 _ _ _ _ _ Hinv Hpp Hu0) as [Hans0 HinvA].
        destruct (call_addr_sound rpc0 _ _ _ _ _ HinvA Hpp Hu1) as [Hans1 HinvB].
        split; [exact Hans0|]. split; [exact Hans1|]. split; [exact HinvB|].
        intros p2 w0 w1 Hl.
        destruct (decide (pool = p2)) as [<-|Hne].
        + rewrite lookup_insert_eq in Hl. injection Hl as <- <-. auto.
        + rewrite lookup_insert_ne in Hl by exact Hne. apply (Hcache p2 w0 w1 Hl). }
    destruct Hstep as (Hans0 & Hans1 & Hinv2 & Hcache2).
    unfold yields_hop. rewrite Hld.
    destruct (swap_direction t0 t1 a0 a1) as [[[[tin tout] ain] aout]|] eqn:Hdir.
    + pose proof (swap_direction_swap _ _ _ _ _ _ _ _ Hdir) as Hsw.
      apply swap_direction_Some in Hdir as ->.
      apply (IH _ _ _ _ _ Hinv2 Hcache2) in H as (new & -> & Hall).
      exists (Hop.mk logi pool tin tout ain aout :: new).
      split; [rewrite <- app_assoc; reflexivity|].
      constructor; [|exact Hall].
      exists a0, a1, t0, t1. cbn [Hop.pool Hop.logIndex].
      split; [exact Hld|]. split; [rewrite Haddr; exact Hpool|].
      split; [exact Hlogi|]. split; [exact Hans0|]. split; [exact Hans1|].
      apply Hsw; reflexivity.
    + rewrite (swap_direction_None _ _ _ _ Hdir).
      apply (IH _ _ _ _ _ Hinv2 Hcache2) in H. exact H.
Qed.

(** C2: every hop of the log extractor comes from a [Swap] log of the
    receipt, one hop for each log with a valid sign configuration of its
    decoded deltas [(a0, a1)].  For the hop exactly one of the two
    configurations holds, and it fixes the direction between the two
    tokens of the pool of the log: with [a0 > 0] and [a1 < 0] the input
    token is token0, the output token is token1, and the amounts are [a0]
    and [-a1]; with [a1 > 0] and [a0 < 0] the input token is token1, the
    output token is token0, and the amounts are [a1] and [-a0].  Both
    amounts are positive.  A [Swap] log whose deltas have the same sign,
    or one of which is zero, gives no hop. *)
Theorem extract_hops_directions (logs : list Log) (rpc : RPC)
    (hops : list Hop.t) :
  fst (extract_hops logs rpc) = Ok hops ->
  (forall h, h ∈ hops ->
     exists lg a0 a1 t0 t1,
       lg ∈ logs
       /\ log_deltas lg = Some (a0, a1)
       /\ (log_address lg ≫= to_checksum_address) = Some (Hop.pool h)
       /\ pool_answer rpc (Hop.pool h) "token0()" t0
       /\ pool_answer rpc (Hop.pool h) "token1()" t1
       /\ hop_of_swap h t0 t1 a0 a1
       /\ 0 < Hop.amountInInt h /\ 0 < Hop.amountOutInt h)
  /\ (exists new, hops ≡ₚ new
                  /\ Forall2 (hop_of_log rpc) (List.filter yields_hop logs) new)
  /\ length hops = length (List.filter yields_hop logs)
  /\ (forall lg a0 a1,
        lg ∈ logs -> log_deltas lg = Some (a0, a1) ->
        ~ token0_in a0 a1 -> ~ token1_in a0 a1 -> yields_hop lg = false).
Proof.
  intros H. destruct (extract_hops logs rpc) as [r rpc'] eqn:Hrun.
  cbn [fst] in H. subst r. rename Hrun into H. unfold extract_hops in H.
  apply bind_Ok in H as (out & rpc1 & Hloop & Hret).
  injection Hret as <- _.
  apply (extract_hops_loop_directed rpc) in Hloop as (new & -> & Hall);
    [|apply memo_sound_refl|intros pool t0 t1 Hl; rewrite lookup_empty in Hl;
                            discriminate].
  rewrite app_nil_l. split; [|split; [|split]].
  - intros h Hh. rewrite sort_by_logIndex_perm in Hh.
    apply list_elem_of_lookup in Hh as [i Hi].
    destruct (Forall2_lookup_r _ _ _ _ _ Hall Hi)
      as (lg & Hlg & a0 & a1 & t0 & t1 & Hld & Hpool & _ & H0 & H1 & Hd).
    exists lg, a0, a1, t0, t1. split.
    + apply list_elem_of_lookup_2 in Hlg. apply list_elem_of_In in Hlg.
      apply filter_In in Hlg as [Hlg _]. apply list_elem_of_In. exact Hlg.
    + split; [exact Hld|]. split; [exact Hpool|]. split; [exact H0|].
      split; [exact H1|]. split; [exact Hd|].
      apply (hop_of_swap_positive h t0 t1 a0 a1 Hd).
  - exists new. split; [apply sort_by_logIndex_perm|exact Hall].
  - rewrite sort_by_logIndex_perm. symmetry. apply (Forall2_length _ _ _ Hall).
  - intros lg a0 a1 _ Hld H0 H1. unfold yields_hop. rewrite Hld.
    unfold token0_in, token1_in in *.
    destruct (Z.ltb_spec 0 a0), (Z.ltb_spec a1 0), (Z.ltb_spec 0 a1),
      (Z.ltb_spec a0 0); simpl; try reflexivity; exfalso; auto.
Qed.

(** *** Decimal digits *)

Lemma digit_value_char (k : Z) :
  0 <= k <= 9 ->
  digit_value (PyDecimal.digit_char k) = k
  /\ is_digit (PyDecimal.digit_char k) = true.
Proof.
  intros Hk.
  assert (H : k = 0 \/ k = 1 \/ k = 2 \/ k = 3 \/ k = 4 \/ k = 5 \/ k = 6
              \/ k = 7 \/ k = 8 \/ k = 9) by lia.
  repeat destruct H as [->|H]; try subst k; split; reflexivity.
Qed.

Lemma digits_value_snoc (ds : list ascii) (c : ascii) :
  digits_value (ds ++ [c]) = 10 * digits_value ds + digit_value c.
Proof. unfold digits_value. rewrite fold_left_app. reflexivity. Qed.

Lemma forallb_snoc {A} (p : A -> bool) (l : list A) (a : A) :
  forallb p (l ++ [a]) = forallb p l && p a.
Proof. rewrite forallb_app. simpl. now rewrite andb_true_r. Qed.

(** With enough fuel, [digits_aux] puts in front of [acc] the digits of
    [n], most significant first and without a leading zero. *)
Lemma digits_aux_spec (fuel : nat) :
  forall n acc,
    0 <= n < 10 ^ Z.of_nat fuel -> (0 < fuel)%nat ->
    exists ds,
      PyDecimal.digits_aux fuel n acc = ds ++ acc
      /\ digits_value ds = n
      /\ forallb is_digit ds = true
      /\ (1 <= length ds)%nat
      /\ (0 < n -> 10 ^ (Z.of_nat (length ds) - 1) <= n < 10 ^ Z.of_nat (length ds))
      /\ (n = 0 -> length ds = 1%nat).
Proof.
  induction fuel as [|fuel IH]; intros n acc Hn Hfuel; [lia|].
  cbn [PyDecimal.digits_aux].
  assert (Hmod : 0 <= n mod 10 <= 9) by (pose proof (Z.mod_pos_bound n 10); lia).
  destruct (digit_value_char (n mod 10) Hmod) as [Hval Hdig].
  destruct (Z.eqb_spec (n / 10) 0) as [Hq|Hq].
  - exists [PyDecimal.digit_char (n mod 10)].
    assert (Hsmall : n = n mod 10) by (pose proof (Z.div_mod n 10); lia).
    split; [reflexivity|]. split.
    { unfold digits_value. cbn [fold_left]. rewrite Hval. lia. }
    split; [cbn [forallb]; now rewrite Hdig|]. split; [cbn [length]; lia|].
    split; [|reflexivity]. intros Hpos.
    change (Z.of_nat (length [PyDecimal.digit_char (n mod 10)])) with 1.
    change (10 ^ (1 - 1)) with 1. change (10 ^ 1) with 10. lia.
  - assert (Hdiv : 0 < n / 10) by (pose proof (Z.div_pos n 10); lia).
    assert (Hfuel' : (0 < fuel)%nat).
    { destruct fuel; [|lia]. change (10 ^ Z.of_nat 1) with 10 in Hn.
      assert (n / 10 = 0) by (apply Z.div_small; lia). lia. }
    destruct (IH (n / 10) (PyDecimal.digit_char (n mod 10) :: acc))
      as (ds & Heq & Hv & Hd & Hlen & Hb & _); [|exact Hfuel'|].
    { split; [lia|]. apply Z.div_lt_upper_bound; [lia|].
      replace (Z.of_nat (S fuel)) with (Z.succ (Z.of_nat fuel)) in Hn by lia.
      rewrite Z.pow_succ_r in Hn by lia. lia. }
    exists (ds ++ [PyDecimal.digit_char (n mod 10)]).
    split; [rewrite Heq, <- app_assoc; reflexivity|]. split.
    { rewrite digits_value_snoc, Hv, Hval. pose proof (Z.div_mod n 10). lia. }
    split; [rewrite forallb_snoc, Hd, Hdig; reflexivity|].
    rewrite length_app. cbn [length]. split; [lia|]. split.
    2:{ intros ->. change (0 / 10) with 0 in Hdiv. lia. }
    intros _. specialize (Hb Hdiv).
    replace (Z.of_nat (length ds + 1) - 1) with (Z.succ (Z.of_nat (length ds) - 1)) by lia.
    replace (Z.of_nat (length ds + 1)) with (Z.succ (Z.of_nat (length ds))) by lia.
    rewrite !Z.pow_succ_r by lia.
    pose proof (Z.div_mod n 10). lia.
Qed.

Lemma digits_spec (n : Z) :
  0 <= n ->
  digits_value (PyDecimal.digits n) = n
  /\ forallb is_digit (PyDecimal.digits n) = true
  /\ (1 <= length (PyDecimal.digits n))%nat
  /\ (0 < n -> 10 ^ (PyDecimal.ndigits n - 1) <= n < 10 ^ PyDecimal.ndigits n)
  /\ (n = 0 -> PyDecimal.ndigits n = 1).
Proof.
  intros Hn. unfold PyDecimal.ndigits, PyDecimal.digits.
  destruct (digits_aux_spec (S (Z.to_nat (Z.log2 n))) n [])
    as (ds & Heq & Hv & Hd & Hlen & Hb & Hz); [|lia|].
  - split; [lia|].
    destruct (Z.eq_dec n 0) as [->|Hpos]; [reflexivity|].
    pose proof (Z.log2_spec n ltac:(lia)) as [_ Hlog].
    pose proof (Z.log2_nonneg n) as Hlog0.
    replace (Z.of_nat (S (Z.to_nat (Z.log2 n)))) with (Z.succ (Z.log2 n)) by lia.
    eapply Z.lt_le_trans; [exact Hlog|].
    apply Z.pow_le_mono_l. lia.
  - rewrite app_nil_r in Heq. rewrite Heq.
    split; [exact Hv|]. split; [exact Hd|]. split; [exact Hlen|].
    split; [exact Hb|]. intros H0. rewrite (Hz H0). reflexivity.
Qed.

(** A number below [10^k] has at most [k] digits, and a number from
    [10^k] on has more than [k]. *)
Lemma ndigits_upper (n k : Z) :
  0 <= n < 10 ^ k -> 1 <= k -> PyDecimal.ndigits n <= k.
Proof.
  intros Hn Hk. destruct (digits_spec n (proj1 Hn)) as (_ & _ & _ & Hb & Hz).
  destruct (Z.eq_dec n 0) as [H0|H0]; [rewrite (Hz H0); lia|].
  destruct (Hb ltac:(lia)) as [Hlow _].
  destruct (Z.le_gt_cases (PyDecimal.ndigits n) k) as [|Hgt]; [assumption|].
  assert (10 ^ k <= 10 ^ (PyDecimal.ndigits n - 1))
    by (apply Z.pow_le_mono_r; lia).
  lia.
Qed.

Lemma ndigits_pow10 (k : Z) : 0 <= k -> PyDecimal.ndigits (10 ^ k) = k + 1.
Proof.
  intros Hk. assert (Hpos : 0 < 10 ^ k) by (apply Z.pow_pos_nonneg; lia).
  destruct (digits_spec (10 ^ k) ltac:(lia)) as (_ & _ & Hlen & Hb & _).
  destruct (Hb Hpos) as [Hlow Hhigh].
  assert (Hnd : 1 <= PyDecimal.ndigits (10 ^ k))
    by (unfold PyDecimal.ndigits; lia).
  apply Z.pow_lt_mono_r_iff in Hhigh; [|lia|lia].
  apply Z.pow_le_mono_r_iff in Hlow; [|lia|lia]. lia.
Qed.

(** *** The decimal arithmetic of the formatter *)

Lemma fix_unchanged (sg : bool) (c e : Z) :
  0 < c -> PyDecimal.ndigits c <= PyDecimal.prec ->
  PyDecimal.Etiny <= e ->
  PyDecimal.ndigits c + e - PyDecimal.prec <= PyDecimal.Etop ->
  PyDecimal.fix_ (PyDecimal.mk sg c e) = Ok (PyDecimal.mk sg c e).
Proof.
  intros Hc Hnd He Htop. unfold PyDecimal.fix_.
  cbn [PyDecimal.coeff PyDecimal.exp PyDecimal.sign].
  destruct (Z.eqb_spec c 0); [lia|].
  destruct (Z.ltb_spec PyDecimal.Etop (PyDecimal.ndigits c + e - PyDecimal.prec)); [lia|].
  destruct (Z.ltb_spec (PyDecimal.ndigits c + e - PyDecimal.prec) PyDecimal.Etiny).
  - destruct (Z.ltb_spec e PyDecimal.Etiny); [lia|reflexivity].
  - destruct (Z.ltb_spec e (PyDecimal.ndigits c + e - PyDecimal.prec)); [lia|reflexivity].
Qed.

Lemma fix_zero (sg : bool) (e : Z) :
  PyDecimal.Etiny <= e <= PyDecimal.Emax ->
  PyDecimal.fix_ (PyDecimal.mk sg 0 e) = Ok (PyDecimal.mk sg 0 e).
Proof.
  intros He. unfold PyDecimal.fix_.
  cbn [PyDecimal.coeff PyDecimal.exp PyDecimal.sign].
  change (0 =? 0) with true. cbv iota. do 2 f_equal. lia.
Qed.

Lemma pow10_value (d : Z) :
  0 <= d <= PyDecimal.Emax ->
  PyDecimal.pow10 d
  = Ok (PyDecimal.mk false (10 ^ Z.min d 79) (d - Z.min d 79)).
Proof.
  intros Hd. unfold PyDecimal.pow10. unfold PyDecimal.Emax in Hd.
  destruct (Z.le_gt_cases d 79) as [Hsmall|Hbig].
  - replace (Z.min (Z.max d 0) PyDecimal.prec) with d by (unfold PyDecimal.prec; lia).
    replace (Z.min d 79) with d by lia.
    apply fix_unchanged.
    + apply Z.pow_pos_nonneg; lia.
    + rewrite ndigits_pow10 by lia. unfold PyDecimal.prec. lia.
    + unfold PyDecimal.Etiny, PyDecimal.Emin, PyDecimal.prec. lia.
    + rewrite ndigits_pow10 by lia.
      unfold PyDecimal.Etop, PyDecimal.Emax, PyDecimal.prec. lia.
  - replace (Z.min (Z.max d 0) PyDecimal.prec) with 80 by (unfold PyDecimal.prec; lia).
    replace (Z.min d 79) with 79 by lia.
    unfold PyDecimal.fix_. cbn [PyDecimal.coeff PyDecimal.exp PyDecimal.sign].
    rewrite (ndigits_pow10 80) by lia.
    change (10 ^ 80 =? 0) with false. cbv iota.
    unfold PyDecimal.Etop, PyDecimal.Etiny, PyDecimal.Emax, PyDecimal.Emin, PyDecimal.prec.
    destruct (Z.ltb_spec (999999 - 80 + 1) (80 + 1 + (d - 80) - 80)); [lia|].
    destruct (Z.ltb_spec (80 + 1 + (d - 80) - 80) (-999999 - 80 + 1)); [lia|].
    destruct (Z.ltb_spec (d - 80) (80 + 1 + (d - 80) - 80)); [|lia].
    destruct (Z.ltb_spec (80 + 1 + (d - 80) - (80 + 1 + (d - 80) - 80)) 0); [lia|].
    replace (80 + 1 + (d - 80) - 80 - (d - 80)) with 1 by lia.
    set (ru := orb _ _).
    assert (Hru : ru = false) by (vm_compute; reflexivity).
    rewrite Hru. cbn [andb]. cbv beta iota zeta.
    change (10 ^ 80 / 10 ^ 1) with (10 ^ 79).
    destruct (Z.ltb_spec (999999 - 80 + 1) (80 + 1 + (d - 80) - 80)); [lia|].
    do 2 f_equal. lia.
Qed.

(** Stripping [j] known trailing zeros. *)
Lemma strip_zeros_pow (j : nat) :
  forall (n : nat) (c e : Z),
    (j <= n)%nat ->
    PyDecimal.strip_zeros n (c * 10 ^ Z.of_nat j) e
    = PyDecimal.strip_zeros (n - j) c (e + Z.of_nat j).
Proof.
  induction j as [|j IH]; intros n c e Hj.
  - rewrite Z.mul_1_r, Z.add_0_r, Nat.sub_0_r. reflexivity.
  - destruct n as [|n]; [lia|]. cbn [PyDecimal.strip_zeros].
    replace (Z.of_nat (S j)) with (Z.succ (Z.of_nat j)) by lia.
    rewrite Z.pow_succ_r by lia.
    replace (c * (10 * 10 ^ Z.of_nat j)) with (c * 10 ^ Z.of_nat j * 10) by lia.
    rewrite Z.mod_mul by lia. change (0 =? 0) with true. cbv iota.
    rewrite Z.div_mul by lia. rewrite IH by lia.
    f_equal. lia.
Qed.

(** What the loop leaves: the same value, an exponent raised by at most
    [n], and either [n] zeros stripped or a last digit that is not zero. *)
Lemma strip_zeros_spec (n : nat) :
  forall c e c' e',
    0 < c ->
    PyDecimal.strip_zeros n c e = (c', e') ->
    exists j : nat,
      (j <= n)%nat /\ e' = e + Z.of_nat j /\ c = c' * 10 ^ Z.of_nat j /\ 0 < c'.
Proof.
  induction n as [|n IH]; intros c e c' e' Hc H.
  - injection H as <- <-. exists 0%nat. rewrite Z.mul_1_r. repeat split; lia.
  - cbn [PyDecimal.strip_zeros] in H.
    destruct (Z.eqb_spec (c mod 10) 0) as [Hm|Hm].
    + assert (Hc10 : c = c / 10 * 10) by (pose proof (Z.div_mod c 10); lia).
      apply IH in H as (j & Hj & -> & Hcj & Hpos); [|lia].
      exists (S j). split; [lia|]. split; [lia|]. split; [|exact Hpos].
      replace (Z.of_nat (S j)) with (Z.succ (Z.of_nat j)) by lia.
      rewrite Z.pow_succ_r by lia. lia.
    + injection H as <- <-. exists 0%nat. rewrite Z.mul_1_r. repeat split; lia.
Qed.

Lemma truediv_pow10_exact (x d : Z) :
  0 <= x < 10 ^ 77 -> 0 <= d <= PyDecimal.Emax ->
  exists c e,
    PyDecimal.truediv (PyDecimal.of_int x)
      (PyDecimal.mk false (10 ^ Z.min d 79) (d - Z.min d 79))
    = Ok (PyDecimal.mk false c e)
    /\ 0 <= c /\ e <= 0 /\ 0 <= e + d /\ c * 10 ^ (e + d) = x.
Proof.
  intros Hx Hd. unfold PyDecimal.Emax in Hd.
  set (m := Z.min d 79). assert (Hm : 0 <= m <= d /\ m <= 79) by (unfold m; lia).
  assert (Hpm : 0 < 10 ^ m) by (apply Z.pow_pos_nonneg; lia).
  unfold PyDecimal.truediv, PyDecimal.of_int.
  cbn [PyDecimal.coeff PyDecimal.exp PyDecimal.sign].
  replace (x <? 0) with false by (symmetry; apply Z.ltb_ge; lia).
  rewrite Z.abs_eq by lia. cbn [xorb].
  destruct (Z.eqb_spec (10 ^ m) 0); [lia|].
  destruct (Z.eqb_spec x 0) as [Hx0|Hx0].
  - exists 0, (0 - (d - m)). split.
    + apply fix_zero. unfold PyDecimal.Etiny, PyDecimal.Emin, PyDecimal.Emax,
        PyDecimal.prec. lia.
    + repeat split; lia.
  - rewrite (ndigits_pow10 m) by lia.
    assert (Hlx : 1 <= PyDecimal.ndigits x <= 77).
    { split; [|apply ndigits_upper; lia].
      destruct (digits_spec x (proj1 Hx)) as (_ & _ & Hl & _).
      unfold PyDecimal.ndigits. lia. }
    unfold PyDecimal.prec.
    set (shift := m + 1 - PyDecimal.ndigits x + 80 + 1).
    assert (Hshift : m + 5 <= shift) by (unfold shift; lia).
    destruct (Z.leb_spec 0 shift); [|lia].
    assert (Hsplit : x * 10 ^ shift = x * 10 ^ (shift - m) * 10 ^ m).
    { rewrite <- Z.mul_assoc, <- Z.pow_add_r by lia. do 2 f_equal. lia. }
    rewrite Hsplit, Z.div_mul, Z.mod_mul by lia.
    change (0 =? 0) with true. cbn [negb].
    replace (Z.to_nat (0 - (d - m) - (0 - (d - m) - shift))) with (Z.to_nat shift)
      by (f_equal; lia).
    replace (shift - m) with (Z.of_nat (Z.to_nat (shift - m))) by lia.
    rewrite strip_zeros_pow by lia.
    destruct (PyDecimal.strip_zeros _ x _) as [c' e'] eqn:Hstrip.
    apply strip_zeros_spec in Hstrip as (j & Hj & -> & Hxc & Hc'); [|lia].
    assert (Hpj : 0 < 10 ^ Z.of_nat j) by (apply Z.pow_pos_nonneg; lia).
    exists c', (0 - (d - m) - shift + Z.of_nat (Z.to_nat (shift - m)) + Z.of_nat j).
    split.
    + apply fix_unchanged; [exact Hc'| | |].
      * assert (PyDecimal.ndigits c' <= 77) by (apply ndigits_upper; nia).
        unfold PyDecimal.prec. lia.
      * unfold PyDecimal.Etiny, PyDecimal.Emin, PyDecimal.prec. lia.
      * assert (PyDecimal.ndigits c' <= 77) by (apply ndigits_upper; nia).
        unfold PyDecimal.Etop, PyDecimal.Emax, PyDecimal.prec. lia.
    + split; [lia|]. split; [lia|]. split; [lia|].
      replace (0 - (d - m) - shift + Z.of_nat (Z.to_nat (shift - m)) + Z.of_nat j + d)
        with (Z.of_nat j) by lia.
      lia.
Qed.

(** *** Digit strings *)

Lemma forallb_repeat {A} (p : A -> bool) (a : A) (k : nat) :
  p a = true -> forallb p (repeat a k) = true.
Proof. intros H. induction k; simpl; [reflexivity|]. now rewrite H. Qed.

Lemma digits_value_cons (c : ascii) (l : list ascii) :
  digits_value (c :: l)
  = digit_value c * 10 ^ Z.of_nat (length l) + digits_value l.
Proof.
  revert c. induction l as [|x l IH] using rev_ind; intros c.
  - unfold digits_value. simpl. lia.
  - rewrite app_comm_cons, !digits_value_snoc, IH, length_app. cbn [length].
    replace (Z.of_nat (length l + 1)) with (Z.succ (Z.of_nat (length l))) by lia.
    rewrite Z.pow_succ_r by lia. lia.
Qed.

Lemma digits_value_zeros_prefix (k : nat) (l : list ascii) :
  digits_value (repeat "0"%char k ++ l) = digits_value l.
Proof.
  induction k as [|k IH]; [reflexivity|].
  cbn [repeat app]. rewrite digits_value_cons, IH.
  change (digit_value "0") with 0. lia.
Qed.

Lemma digits_value_zeros_suffix (l : list ascii) (j : nat) :
  digits_value (l ++ repeat "0"%char j) = digits_value l * 10 ^ Z.of_nat j.
Proof.
  induction j as [|j IH].
  - rewrite app_nil_r. simpl. lia.
  - cbn [repeat]. rewrite repeat_cons, app_assoc, digits_value_snoc, IH.
    change (digit_value "0") with 0.
    replace (Z.of_nat (S j)) with (Z.succ (Z.of_nat j)) by lia.
    rewrite Z.pow_succ_r by lia. lia.
Qed.

Lemma is_digit_not_point (c : ascii) :
  is_digit c = true -> Ascii.eqb c "." = false /\ Ascii.eqb "." c = false.
Proof.
  destruct c as [[] [] [] [] [] [] [] []]; vm_compute; intros H;
    first [discriminate H | auto].
Qed.

Lemma digits_no_point (l : list ascii) :
  forallb is_digit l = true -> existsb (Ascii.eqb ".") l = false.
Proof.
  induction l as [|c l IH]; [reflexivity|]. cbn [forallb existsb].
  intros H. apply andb_true_iff in H as [Hc Hl].
  destruct (is_digit_not_point c Hc) as [_ ->]. now rewrite IH.
Qed.

Lemma split_at_point_digits (ip rest : list ascii) :
  forallb is_digit ip = true ->
  split_at_point (ip ++ rest)
  = (ip ++ fst (split_at_point rest), snd (split_at_point rest)).
Proof.
  induction ip as [|c ip IH]; intros H.
  - simpl. now destruct (split_at_point rest).
  - cbn [forallb] in H. apply andb_true_iff in H as [Hc Hl].
    cbn [app split_at_point]. destruct (is_digit_not_point c Hc) as [-> _].
    rewrite (IH Hl). reflexivity.
Qed.

(** *** Trailing characters *)

Lemma rstrip_all (c : ascii) (j : nat) :
  rstrip c (string_of_list_ascii (repeat c j)) = EmptyString.
Proof.
  induction j as [|j IH]; [reflexivity|].
  cbn [repeat string_of_list_ascii rstrip]. rewrite IH, Ascii.eqb_refl. reflexivity.
Qed.

Lemma rstrip_keep (c a : ascii) (l : list ascii) (j : nat) :
  a <> c ->
  rstrip c (string_of_list_ascii (l ++ a :: repeat c j))
  = string_of_list_ascii (l ++ [a]).
Proof.
  intros Hne. induction l as [|x l IH].
  - cbn [app string_of_list_ascii rstrip]. rewrite rstrip_all.
    destruct (Ascii.eqb_spec a c); [congruence|reflexivity].
  - cbn [app string_of_list_ascii rstrip]. rewrite IH.
    destruct l; reflexivity.
Qed.

Lemma trailing_split {A} (c : A) (l : list A) :
  (forall x y : A, {x = y} + {x <> y}) ->
  exists l' j,
    l = l' ++ repeat c j
    /\ (l' = [] \/ exists l'' a, l' = l'' ++ [a] /\ a <> c).
Proof.
  intros dec. induction l as [|x l IH] using rev_ind.
  - exists [], 0%nat. auto.
  - destruct (dec x c) as [->|Hne].
    + destruct IH as (l' & j & -> & Hl'). exists l', (S j).
      split; [|exact Hl']. rewrite <- app_assoc. f_equal.
      symmetry. apply repeat_cons.
    + exists (l ++ [x]), 0%nat. rewrite app_nil_r. split; [reflexivity|].
      right. exists l, x. auto.
Qed.

Lemma format_f_spec (c e : Z) :
  0 <= c -> e <= 0 ->
  exists ip fp,
    PyDecimal.format_f (PyDecimal.mk false c e)
    = string_of_list_ascii
        (ip ++ match fp with [] => [] | _ => "."%char :: fp end)
    /\ ip <> []
    /\ forallb is_digit ip = true
    /\ forallb is_digit fp = true
    /\ Z.of_nat (length fp) = - e
    /\ digits_value (ip ++ fp) = c.
Proof.
  intros Hc He. unfold PyDecimal.format_f.
  cbn [PyDecimal.coeff PyDecimal.exp PyDecimal.sign].
  replace (0 <? e) with false by (symmetry; apply Z.ltb_ge; lia).
  rewrite andb_false_r. cbn [PyDecimal.coeff PyDecimal.exp PyDecimal.sign app].
  destruct (digits_spec c Hc) as (Hv & Hd & Hlen & _).
  set (ds := PyDecimal.digits c) in *.
  destruct (Z.ltb_spec (e + Z.of_nat (length ds)) 0) as [Hneg|Hnn].
  - exists ["0"%char], (repeat "0"%char (Z.to_nat (- (e + Z.of_nat (length ds)))) ++ ds).
    split; [reflexivity|]. split; [discriminate|]. split; [reflexivity|].
    split; [rewrite forallb_app, forallb_repeat, Hd; reflexivity|].
    split; [rewrite length_app, repeat_length; lia|].
    change (["0"%char] ++ ?l) with (repeat "0"%char 1 ++ l).
    rewrite !digits_value_zeros_prefix. exact Hv.
  - destruct (Z.ltb_spec (Z.of_nat (length ds)) (e + Z.of_nat (length ds))); [lia|].
    remember (Z.to_nat (e + Z.of_nat (length ds))) as k eqn:Hkdef.
    assert (Hk : (k <= length ds)%nat) by lia.
    assert (Hall : forallb is_digit (take k ds) = true
                   /\ forallb is_digit (drop k ds) = true).
    { rewrite <- (take_drop k ds), forallb_app in Hd.
      apply andb_true_iff in Hd. exact Hd. }
    destruct Hall as [Ht Hdr].
    destruct (take k ds) as [|t0 ts] eqn:Htake.
    + assert (k = 0%nat).
      { apply (f_equal length) in Htake. rewrite length_take in Htake.
        simpl in Htake. lia. }
      assert (He0 : e + Z.of_nat (length ds) = 0) by lia.
      clear Hkdef. subst k. exists ["0"%char], (drop 0 ds).
      split; [reflexivity|]. split; [discriminate|]. split; [reflexivity|].
      split; [exact Hdr|]. rewrite drop_0. split; [lia|].
      change (["0"%char] ++ ds) with (repeat "0"%char 1 ++ ds).
      rewrite digits_value_zeros_prefix. exact Hv.
    + exists (t0 :: ts), (drop k ds).
      split; [reflexivity|]. split; [discriminate|]. split; [exact Ht|].
      split; [exact Hdr|]. split; [rewrite length_drop; lia|].
      rewrite <- Htake, take_drop. exact Hv.
Qed.

Lemma parse_decimal_integer (ip : list ascii) :
  ip <> [] -> forallb is_digit ip = true ->
  parse_decimal (string_of_list_ascii ip) = Some (digits_value ip, 0).
Proof.
  intros Hne Hd. unfold parse_decimal.
  rewrite list_ascii_of_string_of_list_ascii.
  rewrite <- (app_nil_r ip) at 1. rewrite (split_at_point_digits ip [] Hd).
  cbn [split_at_point fst snd]. rewrite app_nil_r.
  unfold nonempty_digits. rewrite Hd. destruct ip; [congruence|reflexivity].
Qed.

Lemma parse_decimal_fraction (ip fp : list ascii) :
  ip <> [] -> fp <> [] ->
  forallb is_digit ip = true -> forallb is_digit fp = true ->
  parse_decimal (string_of_list_ascii (ip ++ "."%char :: fp))
  = Some (digits_value (ip ++ fp), Z.of_nat (length fp)).
Proof.
  intros Hi Hf Hdi Hdf. unfold parse_decimal.
  rewrite list_ascii_of_string_of_list_ascii.
  rewrite (split_at_point_digits ip ("."%char :: fp) Hdi).
  cbn [split_at_point fst snd]. change (Ascii.eqb "." ".") with true. cbv iota.
  cbn [fst snd]. rewrite app_nil_r.
  unfold nonempty_digits. rewrite Hdi, Hdf.
  destruct ip; [congruence|]. destruct fp; [congruence|]. reflexivity.
Qed.

Lemma to_hr_parses_back (x d : Z) :
  0 <= x < 10 ^ 77 -> 0 <= d <= PyDecimal.Emax ->
  exists s m k,
    to_hr x d = Ok s
    /\ parse_decimal s = Some (m, k)
    /\ 0 <= k
    /\ m * 10 ^ d = x * 10 ^ k
    /\ trimmed s.
Proof.
  intros Hx Hd. unfold to_hr. rewrite (pow10_value d Hd). cbn [exn_bind].
  destruct (truediv_pow10_exact x d Hx Hd) as (c & e & -> & Hc & He & Hed & Hval).
  cbn [exn_bind].
  destruct (format_f_spec c e Hc He) as (ip & fp & -> & Hip & Hdi & Hdf & Hlen & Hv).
  unfold str_contains. rewrite list_ascii_of_string_of_list_ascii.
  destruct fp as [|f0 fp'].
  - (* no fractional digit *)
    rewrite app_nil_r in *. rewrite (digits_no_point ip Hdi).
    simpl in Hlen. assert (e = 0) by lia. subst e.
    exists (string_of_list_ascii ip), (digits_value ip), 0.
    split; [reflexivity|]. split; [apply parse_decimal_integer; assumption|].
    split; [lia|]. split; [rewrite Hv, Z.pow_0_r; rewrite Z.add_0_l in Hval; lia|].
    intros Hpoint. unfold str_contains in Hpoint.
    rewrite list_ascii_of_string_of_list_ascii, (digits_no_point ip Hdi) in Hpoint.
    discriminate.
  - (* a fractional part: trailing zeros go, then a bare point *)
    rewrite existsb_app. cbn [existsb]. change (Ascii.eqb "." ".") with true.
    rewrite orb_true_l, orb_true_r.
    destruct (trailing_split "0"%char (f0 :: fp') ascii_dec)
      as (l' & j & Hsplit & Hl').
    rewrite Hsplit in *. clear Hsplit.
    rewrite forallb_app in Hdf. apply andb_true_iff in Hdf as [Hdl' _].
    rewrite length_app, repeat_length in Hlen.
    rewrite app_assoc, digits_value_zeros_suffix in Hv.
    destruct Hl' as [->|(l'' & a & -> & Ha)].
    + (* only zeros after the point *)
      cbn [app] in *. rewrite app_nil_r in Hv.
      rewrite (rstrip_keep "0" "." ip j) by discriminate.
      destruct (exists_last Hip) as (ip0 & b & ->).
      rewrite forallb_snoc in Hdi. apply andb_true_iff in Hdi as [Hd0 Hb].
      rewrite <- app_assoc. change ([b] ++ ["."%char]) with (b :: repeat "."%char 1).
      rewrite rstrip_keep.
      2:{ intros ->. discriminate Hb. }
      assert (Hdi : forallb is_digit (ip0 ++ [b]) = true)
        by (rewrite forallb_snoc, Hd0, Hb; reflexivity).
      exists (string_of_list_ascii (ip0 ++ [b])), (digits_value (ip0 ++ [b])), 0.
      split; [reflexivity|]. split; [apply parse_decimal_integer; assumption|].
      split; [lia|]. split.
      * rewrite Z.pow_0_r, Z.mul_1_r, <- Hval, <- Hv, <- Z.mul_assoc.
        rewrite <- Z.pow_add_r by lia. do 2 f_equal. simpl in Hlen. lia.
      * intros Hpoint. unfold str_contains in Hpoint.
        rewrite list_ascii_of_string_of_list_ascii, (digits_no_point _ Hdi) in Hpoint.
        discriminate.
    + (* a last fractional digit that is not zero *)
      rewrite forallb_snoc in Hdl'. apply andb_true_iff in Hdl' as [Hdl'' Hda].
      assert (Hap : a <> "."%char) by (intros ->; discriminate Hda).
      replace (ip ++ "."%char :: (l'' ++ [a]) ++ repeat "0"%char j)
        with ((ip ++ "."%char :: l'') ++ a :: repeat "0"%char j)
        by (rewrite <- !app_assoc; reflexivity).
      rewrite rstrip_keep by exact Ha.
      change [a] with (a :: repeat "."%char 0). rewrite rstrip_keep by exact Hap.
      replace ((ip ++ "."%char :: l'') ++ [a]) with (ip ++ "."%char :: (l'' ++ [a]))
        by (rewrite <- !app_assoc; reflexivity).
      assert (Hdfp : forallb is_digit (l'' ++ [a]) = true)
        by (rewrite forallb_snoc, Hdl'', Hda; reflexivity).
      exists (string_of_list_ascii (ip ++ "."%char :: (l'' ++ [a]))),
        (digits_value (ip ++ l'' ++ [a])), (Z.of_nat (length (l'' ++ [a]))).
      split; [reflexivity|].
      split; [apply parse_decimal_fraction; try assumption; destruct l''; discriminate|].
      split; [lia|]. split.
      * rewrite <- Hval, <- Hv, <- !Z.mul_assoc.
        rewrite <- !Z.pow_add_r by lia. do 2 f_equal. lia.
      * intros _ cs c' Heq.
        rewrite list_ascii_of_string_of_list_ascii in Heq.
        replace (ip ++ "."%char :: (l'' ++ [a])) with ((ip ++ "."%char :: l'') ++ [a])
          in Heq by (rewrite <- !app_assoc; reflexivity).
        apply app_inj_tail in Heq as [_ <-]. auto.
Qed.

(** C6: for a non-negative amount below [10^77] and a decimals value up
    to the largest exponent of the decimal context (999999; a token
    reports a [uint8]), [to_hr] returns a string that reads back as the
    exact decimal [x / 10^d] (as [m / 10^k] with [m * 10^d = x * 10^k]),
    with trailing zeros and a trailing point trimmed; an exact multiple
    renders as ["50"], an 18-decimal amount as
    ["146.252839837202059906"]. *)
Theorem to_hr_exact (x d : Z) :
  0 <= x < 10 ^ 77 -> 0 <= d <= 999999 ->
  (exists s m k,
      to_hr x d = Ok s
      /\ parse_decimal s = Some (m, k)
      /\ 0 <= k
      /\ m * 10 ^ d = x * 10 ^ k
      /\ trimmed s)
  /\ to_hr 50000000 6 = Ok "50"
  /\ to_hr 146252839837202059906 18 = Ok "146.252839837202059906".
Proof.
  intros Hx Hd. split; [apply (to_hr_parses_back x d Hx Hd)|].
  split; vm_compute; reflexivity.
Qed.

(** Beyond the largest exponent the power of ten overflows and the
    formatter raises. *)
Example to_hr_overflow : to_hr 1 1000000 = Raise (DecimalSignal "Overflow").
Proof. vm_compute. reflexivity. Qed.

(** *** Constants *)

(** The addresses of the source are in checksummed form already, so the
    calls of [to_checksum_address] around them change nothing. *)
Example constants_are_checksummed :
  to_checksum_address WETH9 = Some WETH9
  /\ forall a, a ∈ ROUTERS -> to_checksum_address a = Some a.
Proof.
  split; [vm_compute; reflexivity|]. intros a Ha. unfold ROUTERS in Ha.
  repeat (apply elem_of_union in Ha as [Ha|Ha]);
    apply elem_of_singleton in Ha; subst a; vm_compute; reflexivity.
Qed.

(** The topic of the pool [Swap] event and two selectors. *)
Example keccak_constants :
  SWAP_TOPIC0_NOX_LOWER
  = "c42079f94a6350d7e6235f29174924f928cc2ac818eb64fed8004e115fbcca67"
  /\ abi_call_selector "token0()" = "0x0dfe1681"
  /\ abi_call_selector "decimals()" = "0x313ce567".
Proof. repeat split; vm_compute; reflexivity. Qed.

(* ---------------------------------------------------------------- *)
(** ** Further properties of the decoder *)
(* ---------------------------------------------------------------- *)

(** *** The RPC client *)








(** *** Counting requests *)













(** *** More on the log extractor *)













(** *** Hexadecimal text *)







(** *** More on the path codec *)





(** *** Checksummed addresses *)


(** *** Calldata decoding *)










(** *** More on intents *)








(** *** More on recipient inference *)








(** *** More on candidates and scores *)













(** *** The selection is a maximum *)









(** *** The main decode *)














End Decoder.

(* ------------------------------------------------------------------ *)
(** ** The properties at concrete inputs *)
(* ------------------------------------------------------------------ *)

Lemma score_matches_spec_witness :
  declared_tokens_nonempty (Some sample_intent)
  /\ score [sample_hop; sample_hop2] (Some sample_intent)
     = score_spec sample_hop sample_hop2 [sample_hop; sample_hop2]
         (Some sample_intent).
Proof.
  split; [split; discriminate|].
  apply (score_matches_spec sample_hop [sample_hop2] (Some sample_intent)).
  split; discriminate.
Defined.

Lemma extract_hops_directions_witness :
  fst (extract_hops abi_decode_ref node_eth_call_ref
         [sample_bad_log; sample_swap_log] sample_rpc) = Ok [sample_hop]
  /\ exists lg a0 a1 t0 t1,
      lg ∈ [sample_bad_log; sample_swap_log]
      /\ log_deltas abi_decode_ref lg = Some (a0, a1)
      /\ pool_answer node_eth_call_ref sample_rpc (Hop.pool sample_hop)
           "token0()" t0
      /\ pool_answer node_eth_call_ref sample_rpc (Hop.pool sample_hop)
           "token1()" t1
      /\ hop_of_swap sample_hop t0 t1 a0 a1
      /\ 0 < Hop.amountInInt sample_hop /\ 0 < Hop.amountOutInt sample_hop.
Proof.
  assert (H : fst (extract_hops abi_decode_ref node_eth_call_ref
                     [sample_bad_log; sample_swap_log] sample_rpc)
              = Ok [sample_hop]) by (vm_compute; reflexivity).
  split; [exact H|].
  destruct (extract_hops_directions abi_decode_ref node_eth_call_ref
              [sample_bad_log; sample_swap_log] sample_rpc [sample_hop] H)
    as (Hall & _).
  destruct (Hall sample_hop)
    as (lg & a0 & a1 & t0 & t1 & Hlg & Hld & _ & H0 & H1 & Hd & Hpos).
  { apply list_elem_of_In. left. reflexivity. }
  exists lg, a0, a1, t0, t1. auto 10.
Defined.

Lemma build_candidates_chain_invariant_witness :
  [sample_hop; sample_hop2] ∈ build_candidates [sample_hop; sample_hop2] 8
  /\ [sample_hop; sample_hop2] <> []
  /\ (length [sample_hop; sample_hop2] <= MAX_CHAIN)%nat
  /\ chained [sample_hop; sample_hop2].
Proof.
  assert (Hin : [sample_hop; sample_hop2] ∈ build_candidates [sample_hop; sample_hop2] 8).
  { apply list_elem_of_In. vm_compute. right. left. reflexivity. }
  split; [exact Hin|].
  apply (build_candidates_chain_invariant [sample_hop; sample_hop2]
           [sample_hop; sample_hop2] Hin).
Defined.

Lemma build_candidates_complete_witness :
  (0 < length [sample_hop; sample_hop2])%nat
  /\ exists chain,
      maximal_chain_at [sample_hop; sample_hop2] 0 chain
      /\ forall L, (1 <= L <= length chain)%nat ->
                   take L chain ∈ build_candidates [sample_hop; sample_hop2] 8.
Proof.
  assert (Hlt : (0 < length [sample_hop; sample_hop2])%nat) by (simpl; lia).
  split; [exact Hlt|].
  apply (build_candidates_complete [sample_hop; sample_hop2] 0 Hlt).
Defined.

Lemma infer_recipient_non_router_witness :
  to_checksum_address sample_recipient = Some sample_recipient
  /\ (sample_recipient ∉ ROUTERS)
  /\ infer_recipient sample_payout_calls (Some sample_recipient) (Some USDT)
     = Ok (Some sample_recipient).
Proof.
  assert (Hcs : to_checksum_address sample_recipient = Some sample_recipient)
    by (vm_compute; reflexivity).
  assert (Hnot : sample_recipient ∉ ROUTERS).
  { apply (bool_decide_eq_false_1 (sample_recipient ∈ ROUTERS)).
    vm_compute. reflexivity. }
  split; [exact Hcs|]. split; [exact Hnot|].
  apply (infer_recipient_non_router sample_payout_calls sample_recipient
           (Some USDT) Hcs Hnot).
Defined.

Lemma to_hr_exact_witness :
  0 <= 146252839837202059906 < 10 ^ 77
  /\ 0 <= 18 <= 999999
  /\ exists s m k,
      to_hr 146252839837202059906 18 = Ok s
      /\ parse_decimal s = Some (m, k)
      /\ 0 <= k
      /\ m * 10 ^ 18 = 146252839837202059906 * 10 ^ k
      /\ trimmed s.
Proof.
  assert (Hx : 0 <= 146252839837202059906 < 10 ^ 77)
    by (split; [apply Z.leb_le|apply Z.ltb_lt]; vm_compute; reflexivity).
  assert (Hd : 0 <= 18 <= 999999) by lia.
  split; [exact Hx|]. split; [exact Hd|].
  apply (to_hr_exact 146252839837202059906 18 Hx Hd).
Defined.

Lemma parse_path_encode_path_witness :
  exists addrs,
    parse_path sample_path = Ok addrs
    /\ Forall2 checksummed_form
         [bytes20 0xa0b86991c6218b36c1d19d4a2e9eb0ce3606eb48;
          bytes20 0xc02aaa39b223fe8d0a0e5c4f27ead9083c756cc2] addrs.
Proof.
  apply (parse_path_encode_path
           [bytes20 0xa0b86991c6218b36c1d19d4a2e9eb0ce3606eb48;
            bytes20 0xc02aaa39b223fe8d0a0e5c4f27ead9083c756cc2]
           [[x00; x01; xf4]]).
  - repeat constructor.
  - repeat constructor.
  - reflexivity.
Defined.

(** C8, the code at a failing input: a Universal Router V3 swap
    sub-command whose argument blob decodes (recipient [address(1)],
    amount 1000, an empty path) yields no intent, so its recipient is
    lost; the router function [exactInput] with the same recipient and
    the same empty path yields an intent that has no token and keeps the
    recipient. *)
Theorem ur_swap_without_tokens_emits_nothing :
  is_v3_swap_command x00
  /\ abi_decode_ref ur_swap_types (ur_swap_blob [])
     = Some [VStr "0x0000000000000000000000000000000000000001";
             VInt 1000; VInt 0; VBytes []; VBool true]
  /\ parse_path [] = Ok []
  /\ decode_universal_router_intents abi_decode_ref [x00]
       [VBytes (ur_swap_blob [])] 0 = []
  /\ decode_intent "exactInput"
       [VTuple [VBytes []; VStr "0x0000000000000000000000000000000000000001";
                VInt 0; VInt 1000; VInt 0]] 0
     = Ok (Intent.mk 0 "exactInput" None None
             (Some "0x0000000000000000000000000000000000000001") (Some [])).
Proof. split; [left; reflexivity|]. repeat split; vm_compute; reflexivity. Qed.

(** C6 at a concrete input: a token whose [decimals()] answers the word
    1000000 makes [call_u8] return 1000000, and with that decimals value
    [to_hr] raises [Overflow] for the amount 1, which is below [10^77]:
    it returns no string. *)
Lemma to_hr_raises_beyond_largest_exponent :
  0 <= 1 < 10 ^ 77
  /\ fst (call_u8
            (fun _ _ _ _ => Reply (String.append "0x" (bytes_hex (abi_word 1000000))))
            USDC "decimals()" sample_rpc) = Ok 1000000
  /\ to_hr 1 1000000 = Raise (DecimalSignal "Overflow")
  /\ ~ (exists s, to_hr 1 1000000 = Ok s).
Proof.
  split; [split; [lia|vm_compute; reflexivity]|].
  split; [vm_compute; reflexivity|].
  assert (H : to_hr 1 1000000 = Raise (DecimalSignal "Overflow"))
    by (vm_compute; reflexivity).
  split; [exact H|]. intros [s Hs]. rewrite H in Hs. discriminate.
Qed.

Lemma swap_declarations_and_intents_witness :
  (exists it,
      decode_intent "exactInput"
        [VTuple [VBytes []; VStr sample_recipient; VInt 0; VInt 1000; VInt 0]] 3
      = Ok it
      /\ Intent.recipient it = Some sample_recipient
      /\ Intent.tokenIn it = None /\ Intent.tokenOut it = None)
  /\ (exists it,
        decode_universal_router_intents abi_decode_ref [x00]
          [VBytes (ur_swap_blob sample_path)] 0 = [it]
        /\ Intent.recipient it = Some "0x0000000000000000000000000000000000000001"
        /\ Intent.pathTokens it = Some [USDC; WETH9])%type.
Proof.
  destruct (swap_declarations_and_intents abi_decode_ref) as (_ & Hmulti & Hur).
  split.
  - destruct (Hmulti "exactInput"
                [VTuple [VBytes []; VStr sample_recipient; VInt 0; VInt 1000; VInt 0]]
                "0x" 3 [] [] [] sample_recipient sample_recipient)
      as (it & pt & Hdec & _ & Hpt & Hrec & _ & Hnone).
    + reflexivity.
    + eexists. repeat split; reflexivity.
    + vm_compute. reflexivity.
    + exists it. split; [exact Hdec|]. split; [exact Hrec|].
      apply Hnone. vm_compute in Hpt. congruence.
  - destruct (Hur x00 (ur_swap_blob sample_path) 0 sample_path
                "0x0000000000000000000000000000000000000001"
                "0x0000000000000000000000000000000000000001"
                (VInt 1000) (VInt 0) (VBool true))
      as (pt & Hpt & _ & Hsome).
    + left. reflexivity.
    + vm_compute. reflexivity.
    + vm_compute. reflexivity.
    + assert (Hpt' : pt = [USDC; WETH9])
        by (vm_compute in Hpt; injection Hpt as <-; reflexivity).
      subst pt. destruct Hsome as (it & Hit & Hrec & Hpath); [discriminate|].
      exists it. auto.
Defined.

Lemma selection_always_succeeds_witness :
  [sample_hop; sample_hop2] <> []
  /\ build_candidates [sample_hop; sample_hop2] 8 <> []
  /\ exists sc first rest it,
      select_best (build_candidates [sample_hop; sample_hop2] 8) [sample_intent]
      = (sc, Some (first :: rest), it).
Proof.
  assert (Hne : [sample_hop; sample_hop2] <> []) by discriminate.
  split; [exact Hne|].
  destruct (selection_always_succeeds abi_decode_ref node_get_tx_ref
              node_get_receipt_ref node_eth_call_ref
              [sample_hop; sample_hop2] [sample_intent] Hne)
    as (Hc & _ & Hsel & _).
  split; [exact Hc|exact Hsel].
Defined.

(** The whole pipeline on the canned transaction: an unknown selector, one
    invalid and one valid [Swap] log; the sender is the recipient. *)
Example decode_canned_transaction :
  main abi_decode_ref node_get_tx_ref node_get_receipt_ref node_eth_call_ref
    ["uniswap_v3_decoder.py";
     "0x028818d4e58333897c9f9498fdcab33d3f7d86334190854f39077a2052026204"]
    (Some "http://localhost:8545")
  = Printed
      (mkOutput
         (mkResult (Some sample_recipient) (Some sample_recipient)
            USDC WETH9 "59.401751" "0.0175")
         None).
Proof. vm_compute. reflexivity. Qed.

(** The selection on the two sample hops prefers the declared path. *)
Example select_best_sample :
  select_best (build_candidates [sample_hop; sample_hop2] 8) [sample_intent]
  = ((135, 59401751), Some [sample_hop; sample_hop2], Some sample_intent).
Proof. vm_compute. reflexivity. Qed.

(* ------------------------------------------------------------------ *)
(** ** Instances of the further properties *)
(* ------------------------------------------------------------------ *)
















